(** * y-cli: the turn-resolution and tool-invocation loop of [ChatManager]

    A shallow embedding of [src/chat/chat_manager.py]: the confirmation gate
    [get_user_confirmation], the mutually recursive pair
    [process_user_message] / [process_assistant_message], [persist_chat], and
    the chat branch of the loop of [run].

    The collaborators of the class (provider, MCP manager, chat service,
    configuration service, terminal) are not part of the class.  The provider
    and the terminal are modelled as scripts that the code consumes: the
    replies that [call_chat_completions] will give, in order, and the lines
    that [input()] will read.  The other collaborators are the fields of the
    class [Collaborators].  Every call to a collaborator that the properties
    speak about is recorded in a trace, with the values of its arguments at
    the time of the call.  The display manager only prints and is left out. *)

From Stdlib Require Import Ascii String.
From stdpp Require Import base option list gmap strings.

(** ** Python string helpers used by the gate

    The methods of [str] are given for ASCII text, the strings for which
    [str.isascii()] holds: there they remove and change what Python removes
    and changes.  Python also takes characters beyond that range for
    whitespace and for upper case; a property whose outcome depends on that
    decision is stated for ASCII text. *)

Module Text.

(** [str.isascii()] *)
Fixpoint isascii (s : string) : bool :=
  match s with
  | EmptyString => true
  | String c s' => (nat_of_ascii c <? 128)%nat && isascii s'
  end.

(** [str.isspace] on the ASCII range: TAB..CR, FS..US and the blank. *)
Definition isspace (c : ascii) : bool :=
  let n := nat_of_ascii c in
  ((9 <=? n)%nat && (n <=? 13)%nat) || ((28 <=? n)%nat && (n <=? 32)%nat).

Definition lower_char (c : ascii) : ascii :=
  let n := nat_of_ascii c in
  if ((65 <=? n)%nat && (n <=? 90)%nat) then ascii_of_nat (n + 32) else c.

(** [str.lower()] *)
Fixpoint lower (s : string) : string :=
  match s with
  | EmptyString => EmptyString
  | String c s' => String (lower_char c) (lower s')
  end.

(** [str.lstrip()] *)
Fixpoint lstrip (s : string) : string :=
  match s with
  | EmptyString => EmptyString
  | String c s' => if isspace c then lstrip s' else s
  end.

(** [str.rstrip()] *)
Fixpoint rstrip (s : string) : string :=
  match s with
  | EmptyString => EmptyString
  | String c s' =>
      match rstrip s' with
      | EmptyString => if isspace c then EmptyString else String c EmptyString
      | r => String c r
      end
  end.

(** [str.strip()] *)
Definition strip (s : string) : string := lstrip (rstrip s).

End Text.

(** ** Data model *)

(** A content part is a Python dict, read with [part.get(key)]. *)
Abbreviation Part := (gmap string string).

(** The arguments of a tool call: a dict. *)
Abbreviation Args := (gmap string string).

(** [Message.content] is either a [str] or a [list] of parts. *)
Inductive Content :=
| Str (s : string)
| Parts (ps : list Part).

(** [chat.models.Message], with the fields that [ChatManager] reads or
    writes. *)
Record Message := mkMessage {
  role : string;
  content : Content;
  server : option string;
  tool : option string;
  arguments : option Args;
}.

(** The list object that the [messages] attribute of a chat record refers
    to: a list of the record's own, or the very list that [self.messages]
    refers to, which grows with every append of the manager.  [_load_chat]
    makes the manager and the record that it loads share their list
    (lines 80-81); whether a record that the service returns shares the list
    that it was given is up to the service. *)
Inductive Transcript :=
| Own (msgs : list Message)
| Shared.

(** Modelled from the spec: [chat.models.Chat] is not among the sources; the
    persisted record has an id, the transcript and the correlation id that the
    service was given.  [ChatManager] reads [id] and [messages] only. *)
Record Chat := mkChat {
  id : string;
  chat_messages : Transcript;
  chat_external_id : option string;
}.

(** [mcp_service.get_config(server_name)] yields a server configuration;
    [hasattr(server_config, 'auto_confirm')] is [Some] here. *)
Record ServerConfig := mkServerConfig {
  auto_confirm : option (list string);
}.

#[global] Instance Content_eq_dec : EqDecision Content.
Proof. solve_decision. Defined.
#[global] Instance Message_eq_dec : EqDecision Message.
Proof. solve_decision. Defined.
#[global] Instance Transcript_eq_dec : EqDecision Transcript.
Proof. solve_decision. Defined.
#[global] Instance Chat_eq_dec : EqDecision Chat.
Proof. solve_decision. Defined.

(** Modelled from the spec: [chat.utils.message_utils.create_message] is not
    among the sources.  It builds a message of the given role and content;
    the tool metadata is what the keyword arguments give, absent otherwise. *)
Definition create_message (r : string) (c : Content)
    (sv tl : option string) (args : option Args) : Message :=
  {| role := r; content := c; server := sv; tool := tl; arguments := args |}.

(** The fields of [ChatManager] that the turn loop reads or writes. *)
Record ChatManager := mkChatManager {
  messages : list Message;
  external_id : option string;
  current_chat : option Chat;
  system_prompt : option string;
  chat_id : string;
  last_printed_text_output : option string;
  mcp_servers : list string;          (* bot_config.mcp_servers *)
}.

(** [chat.messages], read while the manager is in state [s]. *)
Definition messages_of (chat : Chat) (s : ChatManager) : list Message :=
  match chat_messages chat with
  | Own msgs => msgs
  | Shared => messages s
  end.

(** Calls to the collaborators, in the order in which they are made.  A chat
    record among the arguments is the object that is passed: one that shares
    its list with the manager shows the transcript as it is at that time. *)
Inductive Event :=
| CallChatCompletions (msgs : list Message) (chat : option Chat)
                      (prompt : option string)
| Input
| ExecuteTool (server_name tool_name : string) (args : Args)
| CreateChat (msgs : list Message) (eid : option string) (cid : string)
| UpdateChat (cid : string) (msgs : list Message) (eid : option string).

#[global] Instance Event_eq_dec : EqDecision Event.
Proof. solve_decision. Defined.

(** The manager, the lines still to be typed at the terminal, and the calls
    made so far. *)
Record World := mkWorld {
  self : ChatManager;
  stdin : list string;
  trace : list Event;
}.

(** ** Exceptions and the state monad of the embedding *)

Inductive Exn :=
| ProviderError      (* [call_chat_completions] raised *)
| EOFError.          (* [input()] at the end of the terminal input *)

Inductive Result (A : Type) :=
| Ok (a : A)
| Raise (e : Exn).
Arguments Ok {A} a.
Arguments Raise {A} e.


Definition M (A : Type) : Type := World → Result A * World.

#[global] Instance M_ret : MRet M := λ A a w, (Ok a, w).
#[global] Instance M_bind : MBind M := λ A B f m w,
  match m w with
  | (Ok a, w') => f a w'
  | (Raise e, w') => (Raise e, w')
  end.

Definition raise {A} (e : Exn) : M A := λ w, (Raise e, w).
Definition get : M ChatManager := λ w, (Ok (self w), w).
Definition modify (f : ChatManager → ChatManager) : M unit :=
  λ w, (Ok (), {| self := f (self w); stdin := stdin w; trace := trace w |}).
Definition log (e : Event) : M unit :=
  λ w, (Ok (), {| self := self w; stdin := stdin w; trace := trace w ++ [e] |}).

(** Field updates of [self]. *)
Definition append_message (m : Message) (s : ChatManager) : ChatManager :=
  {| messages := messages s ++ [m]; external_id := external_id s;
     current_chat := current_chat s; system_prompt := system_prompt s;
     chat_id := chat_id s;
     last_printed_text_output := last_printed_text_output s;
     mcp_servers := mcp_servers s |}.

Definition set_external_id (e : option string) (s : ChatManager) : ChatManager :=
  {| messages := messages s; external_id := e;
     current_chat := current_chat s; system_prompt := system_prompt s;
     chat_id := chat_id s;
     last_printed_text_output := last_printed_text_output s;
     mcp_servers := mcp_servers s |}.

Definition set_current_chat (c : option Chat) (s : ChatManager) : ChatManager :=
  {| messages := messages s; external_id := external_id s;
     current_chat := c; system_prompt := system_prompt s;
     chat_id := chat_id s;
     last_printed_text_output := last_printed_text_output s;
     mcp_servers := mcp_servers s |}.

Definition set_last_printed_text_output (t : option string) (s : ChatManager)
    : ChatManager :=
  {| messages := messages s; external_id := external_id s;
     current_chat := current_chat s; system_prompt := system_prompt s;
     chat_id := chat_id s;
     last_printed_text_output := t;
     mcp_servers := mcp_servers s |}.

(** Python truthiness of an [Optional[str]]. *)
Definition truthy (s : option string) : bool :=
  match s with
  | Some s => negb (String.eqb s "")
  | None => false
  end.

(** [next((part.get('text') for part in content if part.get('type') == 'text'), None)] *)
Fixpoint first_text (ps : list Part) : option string :=
  match ps with
  | [] => None
  | part :: ps' =>
      if bool_decide (part !! "type" = Some "text") then part !! "text"
      else first_text ps'
  end.

(** What [call_chat_completions] returns: the assistant message and the
    correlation id, [None] when the provider gives none. *)
Definition Reply : Type := Message * option string.

(** The fixed cancellation notice, [no_exec_msg]. *)
Definition no_exec_msg : string := "Tool execution cancelled by user.".

(** ** The operations of [ChatManager] *)

(** The collaborators of [ChatManager] whose code is outside the class. *)
Class Collaborators := {
  (** The test on one part that [contains_tool_use] and [split_content] apply
      (chat/utils/tool_utils.py is not among the sources). *)
  is_tool_use : Part → bool;
  (** [mcp_manager.extract_mcp_tool_use(tool_content)]: the server, the tool
      and the arguments, or a falsy value. *)
  extract_mcp_tool_use : Content → option (string * string * Args);
  (** [mcp_manager.execute_tool(server_name, tool_name, arguments)]; what it
      answers may depend on the calls made before. *)
  execute_tool : list Event → string → string → Args → Content;
  (** [mcp_service.get_config(server_name)] *)
  get_config : string → option ServerConfig;
  (** [service.create_chat(messages, external_id, chat_id)] *)
  create_chat : list Message → option string → string → Chat;
  (** [service.update_chat(id, messages, external_id)] *)
  update_chat : string → list Message → option string → Chat;
}.

Section ChatManager.

Context `{Collaborators}.

(** Modelled from the spec: [contains_tool_use] is not among the sources;
    it is true iff the content is a sequence containing at least one
    tool-use-typed part. *)
Definition contains_tool_use (c : Content) : bool :=
  match c with
  | Str _ => false
  | Parts ps => existsb is_tool_use ps
  end.

(** Modelled from the spec: [split_content] is not among the sources; it
    partitions the sequence into its non-tool-use parts (plain) and its
    tool-use parts (directive). *)
Definition split_content (c : Content) : Content * Content :=
  match c with
  | Str s => (Str s, Parts [])
  | Parts ps =>
      (Parts (List.filter (λ p, negb (is_tool_use p)) ps),
       Parts (List.filter is_tool_use ps))
  end.

(** Lines 97-103: the auto-confirm test of [get_user_confirmation]. *)
Definition auto_confirmed (server_name tool_name : option string)
    (servers : list string) : bool :=
  match server_name, tool_name with
  | Some sn, Some tn =>
      truthy server_name && truthy tool_name
      && negb (bool_decide (servers = []))
      && match get_config sn with
         | Some server_config =>
             match auto_confirm server_config with
             | Some names => bool_decide (tn ∈ names)
             | None => false
             end
         | None => false
         end
  | _, _ => false
  end.

(** Lines 107-113: the [while True] loop around [input()].  Each pass takes
    one line of the terminal; at the end of the input [input()] raises. *)
Fixpoint confirmation_loop (lines : list string) (w : World)
    : Result bool * World :=
  match lines with
  | [] =>
      (Raise EOFError,
       {| self := self w; stdin := []; trace := trace w ++ [Input] |})
  | line :: lines' =>
      let w' := {| self := self w; stdin := lines';
                   trace := trace w ++ [Input] |} in
      let response := Text.lower (Text.strip line) in
      if bool_decide (response ∈ ["y"; "yes"]) then (Ok true, w')
      else if bool_decide (response ∈ ["n"; "no"]) then (Ok false, w')
      else confirmation_loop lines' w'
  end.

Definition get_user_confirmation (tool_content : Content)
    (server_name tool_name : option string) : M bool :=
  s ← get;
  if auto_confirmed server_name tool_name (mcp_servers s) then mret true
  else λ w, confirmation_loop (stdin w) w.

(** Lines 119-123, 140-143 and 163-166: the text kept for [/copy]. *)
Definition store_last_output (c : Content) : M unit :=
  match c with
  | Str s => modify (set_last_printed_text_output (Some s))
  | Parts ps => modify (set_last_printed_text_output (first_text ps))
  end.

Definition persist_chat : M unit :=
  s ← get;
  match current_chat s with
  | None =>
      log (CreateChat (messages s) (external_id s) (chat_id s));;
      modify (set_current_chat
                (Some (create_chat (messages s) (external_id s) (chat_id s))))
  | Some c =>
      log (UpdateChat (id c) (messages s) (external_id s));;
      modify (set_current_chat
                (Some (update_chat (id c) (messages s) (external_id s))))
  end.

(** [process_assistant_message], with the call of [process_user_message] on
    its last line taken as [recur].  [provider] is what the provider will
    answer to the calls still to come; the result is the final state of the
    [assistant_message] object together with the answers left unused. *)
Definition process_assistant_message (provider : list Reply)
    (recur : Message → M (list Reply)) (assistant_message : Message)
    : M (Message * list Reply) :=
  let content_ := content assistant_message in
  if negb (contains_tool_use content_) then
    modify (append_message assistant_message);;
    store_last_output content_;;
    mret (assistant_message, provider)
  else
    let '(plain_content, tool_content) := split_content content_ in
    match extract_mcp_tool_use tool_content with
    | None => mret (assistant_message, provider)
    | Some (server_name, tool_name, args) =>
        let assistant_message :=
          {| role := role assistant_message;
             content := plain_content;
             server := Some server_name;
             tool := Some tool_name;
             arguments := Some args |} in
        modify (append_message assistant_message);;
        store_last_output plain_content;;
        confirmed ← get_user_confirmation tool_content
                      (Some server_name) (Some tool_name);
        if negb confirmed then
          let user_message :=
            create_message "user" (Str no_exec_msg) None None None in
          modify (append_message user_message);;
          mret (assistant_message, provider)
        else
          log (ExecuteTool server_name tool_name args);;
          tool_results ← (λ w, (Ok (execute_tool (trace w) server_name
                                      tool_name args), w));
          let user_message :=
            create_message "user" tool_results (Some server_name)
                           (Some tool_name) (Some args) in
          rest ← recur user_message;
          mret (assistant_message, rest)
    end.

(** [process_user_message].  The provider answers the calls in the order of
    [provider] and raises when the list is used up. *)
Fixpoint process_user_message (provider : list Reply)
    (user_message : Message) : M (list Reply) :=
  modify (append_message user_message);;
  store_last_output (content user_message);;
  s ← get;
  log (CallChatCompletions (messages s) (current_chat s) (system_prompt s));;
  match provider with
  | [] => raise ProviderError
  | (assistant_message, eid) :: provider' =>
      (if truthy eid then modify (set_external_id eid) else mret ());;
      r ← process_assistant_message provider'
            (process_user_message provider') assistant_message;
      persist_chat;;
      mret r.2
  end.

(** Lines 300-312 of [run]: the iterations of its loop that reach the chat
    branch.  The other iterations (exit, empty input, slash commands, the
    legacy copy command) leave the transcript, the correlation id, the chat
    record and the storage as they are. *)
Fixpoint run_chat (inputs : list string) (provider : list Reply)
    : M (list Reply) :=
  match inputs with
  | [] => mret provider
  | user_input :: inputs' =>
      let user_message :=
        create_message "user" (Str user_input) None None None in
      rest ← process_user_message provider user_message;
      run_chat inputs' rest
  end.

End ChatManager.

(** ** States of the world along a turn *)

Section Turns.

Context `{Collaborators}.

Definition on_self (f : ChatManager → ChatManager) (w : World) : World :=
  {| self := f (self w); stdin := stdin w; trace := trace w |}.

Definition logged (e : Event) (w : World) : World :=
  {| self := self w; stdin := stdin w; trace := trace w ++ [e] |}.

(** The text that [store_last_output] keeps. *)
Definition text_of (c : Content) : option string :=
  match c with
  | Str s => Some s
  | Parts ps => first_text ps
  end.

(** [m] appended and its text kept as the last output. *)
Definition said (m : Message) (w : World) : World :=
  on_self (set_last_printed_text_output (text_of (content m)))
          (on_self (append_message m) w).

(** Lines 116-125: [user_message] appended and the provider called. *)
Definition called (user_message : Message) (w : World) : World :=
  let w1 := said user_message w in
  logged (CallChatCompletions (messages (self w1)) (current_chat (self w1))
                              (system_prompt (self w1))) w1.

(** Lines 126-127. *)
Definition answered (eid : option string) (w : World) : World :=
  if truthy eid then on_self (set_external_id eid) w else w.

(** The world after [persist_chat]. *)
Definition committed (w : World) : World := (persist_chat w).2.

(** [n] lines read by [input()]. *)
Definition prompted (n : nat) (w : World) : World :=
  {| self := self w; stdin := drop n (stdin w);
     trace := trace w ++ replicate n Input |}.

(** Lines 154-160: the assistant message as rewritten for a directive. *)
Definition directive_message (assistant_message : Message)
    (server_name tool_name : string) (args : Args) : Message :=
  {| role := role assistant_message;
     content := (split_content (content assistant_message)).1;
     server := Some server_name;
     tool := Some tool_name;
     arguments := Some args |}.

(** Line 180: the user message that wraps the result of the tool, run after
    the calls [h]. *)
Definition result_message (h : list Event) (server_name tool_name : string)
    (args : Args) : Message :=
  create_message "user" (execute_tool h server_name tool_name args)
                 (Some server_name) (Some tool_name) (Some args).

(** Line 172: the synthetic cancellation message. *)
Definition cancel_message : Message :=
  create_message "user" (Str no_exec_msg) None None None.

(** The tool-use parts of a content, and its directive part. *)
Definition tool_use_parts (c : Content) : list Part :=
  match c with
  | Str _ => []
  | Parts ps => List.filter is_tool_use ps
  end.

Definition directive (c : Content) : Content := (split_content c).2.

(** The runs of [process_user_message], case by case: [resolves provider um
    w r w'] when the call on [um] in world [w], with a provider that answers
    [provider], ends in world [w'] returning or raising [r]. *)
Inductive resolves : list Reply → Message → World →
                     Result (list Reply) → World → Prop :=
| provider_fails um w :
    resolves [] um w (Raise ProviderError) (called um w)
| plain_reply am eid provider um w :
    contains_tool_use (content am) = false →
    resolves ((am, eid) :: provider) um w (Ok provider)
             (committed (said am (answered eid (called um w))))
| malformed_directive am eid provider um w :
    contains_tool_use (content am) = true →
    extract_mcp_tool_use (directive (content am)) = None →
    resolves ((am, eid) :: provider) um w (Ok provider)
             (committed (answered eid (called um w)))
| prompt_interrupted am eid provider um w sn tn args w2 :
    contains_tool_use (content am) = true →
    extract_mcp_tool_use (directive (content am)) = Some (sn, tn, args) →
    get_user_confirmation (directive (content am)) (Some sn) (Some tn)
      (said (directive_message am sn tn args) (answered eid (called um w)))
      = (Raise EOFError, w2) →
    resolves ((am, eid) :: provider) um w (Raise EOFError) w2
| denied am eid provider um w sn tn args w2 :
    contains_tool_use (content am) = true →
    extract_mcp_tool_use (directive (content am)) = Some (sn, tn, args) →
    get_user_confirmation (directive (content am)) (Some sn) (Some tn)
      (said (directive_message am sn tn args) (answered eid (called um w)))
      = (Ok false, w2) →
    resolves ((am, eid) :: provider) um w (Ok provider)
             (committed (on_self (append_message cancel_message) w2))
| approved am eid provider um w sn tn args w2 rest w' :
    contains_tool_use (content am) = true →
    extract_mcp_tool_use (directive (content am)) = Some (sn, tn, args) →
    get_user_confirmation (directive (content am)) (Some sn) (Some tn)
      (said (directive_message am sn tn args) (answered eid (called um w)))
      = (Ok true, w2) →
    resolves provider
             (result_message (trace w2 ++ [ExecuteTool sn tn args]) sn tn args)
             (logged (ExecuteTool sn tn args) w2) (Ok rest) w' →
    resolves ((am, eid) :: provider) um w (Ok rest) (committed w')
| approved_raises am eid provider um w sn tn args w2 e w' :
    contains_tool_use (content am) = true →
    extract_mcp_tool_use (directive (content am)) = Some (sn, tn, args) →
    get_user_confirmation (directive (content am)) (Some sn) (Some tn)
      (said (directive_message am sn tn args) (answered eid (called um w)))
      = (Ok true, w2) →
    resolves provider
             (result_message (trace w2 ++ [ExecuteTool sn tn args]) sn tn args)
             (logged (ExecuteTool sn tn args) w2) (Raise e) w' →
    resolves ((am, eid) :: provider) um w (Raise e) w'.

(** Lines 125-129: what [process_user_message] does from the moment
    [call_chat_completions] has been called. *)
Definition await_reply (provider : list Reply) : M (list Reply) :=
  match provider with
  | [] => raise ProviderError
  | (assistant_message, eid) :: provider' =>
      λ w,
        match process_assistant_message provider'
                (process_user_message provider') assistant_message
                (answered eid w) with
        | (Ok r, w') => (Ok r.2, committed w')
        | (Raise e, w') => (Raise e, w')
        end
  end.

(** The chat record that the manager holds after the calls [evs], from the
    record [cur]: each commit replaces it by what the service returns. *)
Fixpoint chat_after (cur : option Chat) (evs : list Event) : option Chat :=
  match evs with
  | [] => cur
  | CreateChat msgs eid cid :: evs' =>
      chat_after (Some (create_chat msgs eid cid)) evs'
  | UpdateChat cid msgs eid :: evs' =>
      chat_after (Some (update_chat cid msgs eid)) evs'
  | _ :: evs' => chat_after cur evs'
  end.


(** Counting the calls of one kind in a trace. *)
Definition is_commit (e : Event) : bool :=
  match e with
  | CreateChat _ _ _ | UpdateChat _ _ _ => true
  | _ => false
  end.

Definition is_provider_call (e : Event) : bool :=
  match e with
  | CallChatCompletions _ _ _ => true
  | _ => false
  end.

Definition is_tool_call (e : Event) : bool :=
  match e with
  | ExecuteTool _ _ _ => true
  | _ => false
  end.

Definition count (p : Event → bool) (evs : list Event) : nat :=
  length (List.filter p evs).


(** [normalized line] is what the gate compares: [line.strip().lower()]. *)
Definition normalized (line : string) : string :=
  Text.lower (Text.strip line).









End Turns.

(** ** Sample collaborators and data *)

Definition ex_is_tool_use (p : Part) : bool :=
  bool_decide (p !! "type" = Some "tool_use").

Definition ex_extract (c : Content) : option (string * string * Args) :=
  match c with
  | Parts (p :: _) =>
      match p !! "server", p !! "tool" with
      | Some s, Some t =>
          Some (s, t, delete "type" (delete "server" (delete "tool" p)))
      | _, _ => None
      end
  | _ => None
  end.

Definition ex_get_config (sn : string) : option ServerConfig :=
  if bool_decide (sn = "fs") then Some {| auto_confirm := Some ["list"] |}
  else None.

#[local] Instance ex_env : Collaborators := {|
  is_tool_use := ex_is_tool_use;
  extract_mcp_tool_use := ex_extract;
  execute_tool := λ _ _ _ _, Str "a.txt, b.txt";
  get_config := ex_get_config;
  create_chat := λ msgs eid cid, mkChat cid (Own msgs) eid;
  update_chat := λ cid msgs eid, mkChat cid (Own msgs) eid;
|}.

Definition ex_self (servers : list string) : ChatManager :=
  {| messages := []; external_id := None; current_chat := None;
     system_prompt := Some "time"; chat_id := "c1";
     last_printed_text_output := None; mcp_servers := servers |}.

Definition ex_world (servers lines : list string) : World :=
  {| self := ex_self servers; stdin := lines; trace := [] |}.

Definition ex_text_part (s : string) : Part :=
  {[ "type" := "text"; "text" := s ]}.

Definition ex_tool_part (tool_name : string) : Part :=
  {[ "type" := "tool_use"; "server" := "fs"; "tool" := tool_name;
     "path" := "." ]}.

Definition ex_bad_part : Part := {[ "type" := "tool_use" ]}.

Definition ex_assistant (c : Content) : Message :=
  {| role := "assistant"; content := c; server := None; tool := None;
     arguments := None |}.

Definition ex_user (s : string) : Message :=
  create_message "user" (Str s) None None None.

Definition ex_tool_reply (tool_name : string) (eid : option string) : Reply :=
  (ex_assistant (Parts [ex_text_part "let me look"; ex_tool_part tool_name]),
   eid).

Definition ex_plain_reply (s : string) (eid : option string) : Reply :=
  (ex_assistant (Str s), eid).

(** ** Further notions for sessions *)

Section Sessions.

Context `{Collaborators}.

Definition is_input (e : Event) : bool :=
  match e with
  | Input => true
  | _ => false
  end.

(** The transcript and the correlation id that a commit hands to the
    service. *)
Definition written (e : Event) : option (list Message * option string) :=
  match e with
  | CreateChat msgs eid _ | UpdateChat _ msgs eid => Some (msgs, eid)
  | _ => None
  end.

(** The commits among [evs] follow [persist_chat] from the record [cur]: a
    chat is created, under the id [cid], only when the manager holds no
    record, and is updated under the id of the record that the service
    returned last. *)
Fixpoint commit_chain (cur : option Chat) (cid : string) (evs : list Event)
    : Prop :=
  match evs with
  | [] => True
  | CreateChat msgs eid c :: evs' =>
      cur = None ∧ c = cid
      ∧ commit_chain (Some (create_chat msgs eid c)) cid evs'
  | UpdateChat i msgs eid :: evs' =>
      (∃ ch, cur = Some ch ∧ i = id ch)
      ∧ commit_chain (Some (update_chat i msgs eid)) cid evs'
  | _ :: evs' => commit_chain cur cid evs'
  end.

(** Every provider call among [evs] is passed a transcript that ends in a
    message of role "user". *)
Definition calls_end_with_user (evs : list Event) : Prop :=
  Forall (λ e,
            match e with
            | CallChatCompletions msgs _ _ =>
                ∃ m, last msgs = Some m ∧ role m = "user"
            | _ => True
            end) evs.

(** The settings of the manager are the same in [w'] as in [w]. *)
Definition same_settings (w w' : World) : Prop :=
  system_prompt (self w') = system_prompt (self w)
  ∧ chat_id (self w') = chat_id (self w)
  ∧ mcp_servers (self w') = mcp_servers (self w).

(** From [w] to [w'] the calls [new] were made: their commits follow
    [persist_chat], and [w'] holds the record of the last one. *)
Definition chained (w : World) (new : list Event) (w' : World) : Prop :=
  commit_chain (current_chat (self w)) (chat_id (self w)) new
  ∧ current_chat (self w') = chat_after (current_chat (self w)) new
  ∧ chat_id (self w') = chat_id (self w).

End Sessions.

(** ** More Python string helpers, for the input manager *)

Module Py.

(** The line feed, "\n". *)
Definition newline : ascii := ascii_of_nat 10.

(** [s.split(sep)] for a separator [sep] of one character. *)
Fixpoint split (sep : ascii) (s : string) : list string :=
  match s with
  | EmptyString => [EmptyString]
  | String c s' =>
      if Ascii.eqb c sep then EmptyString :: split sep s'
      else match split sep s' with
           | [] => [String c EmptyString]
           | field :: fields => String c field :: fields
           end
  end.

(** [sep.join(fields)] *)
Definition join (sep : string) (fields : list string) : string :=
  String.concat sep fields.

(** [s.split()]: the maximal runs of [s] without whitespace. *)
Fixpoint cut (s : string) : list string :=
  match s with
  | EmptyString => [EmptyString]
  | String c s' =>
      if Text.isspace c then EmptyString :: cut s'
      else match cut s' with
           | [] => [String c EmptyString]
           | field :: fields => String c field :: fields
           end
  end.

Definition split_whitespace (s : string) : list string :=
  List.filter (λ field, negb (String.eqb field EmptyString)) (cut s).

(** [s.startswith(p)] *)
Definition startswith (p s : string) : bool := String.prefix p s.

Definition digit (c : ascii) : option Z :=
  let n := nat_of_ascii c in
  if ((48 <=? n)%nat && (n <=? 57)%nat) then Some (Z.of_nat (n - 48))
  else None.

(** The digits of a decimal literal, single underscores allowed between two
    digits; [after_digit] tells whether the character before was a digit.
    The result is the value and the number of digits read. *)
Fixpoint digits (acc : Z) (n : nat) (after_digit : bool) (s : string)
    : option (Z * nat) :=
  match s with
  | EmptyString => if after_digit then Some (acc, n) else None
  | String c s' =>
      match digit c with
      | Some d => digits (10 * acc + d) (S n) true s'
      | None =>
          if Ascii.eqb c "_"%char && after_digit then digits acc n false s'
          else None
      end
  end.

(** The whitespace that [int] skips around an ASCII literal: TAB..CR and the
    blank, without FS..US. *)
Definition int_space (c : ascii) : bool :=
  let n := nat_of_ascii c in
  ((9 <=? n)%nat && (n <=? 13)%nat) || (n =? 32)%nat.

Fixpoint skip_left (s : string) : string :=
  match s with
  | EmptyString => EmptyString
  | String c s' => if int_space c then skip_left s' else s
  end.

Fixpoint skip_right (s : string) : string :=
  match s with
  | EmptyString => EmptyString
  | String c s' =>
      match skip_right s' with
      | EmptyString =>
          if int_space c then EmptyString else String c EmptyString
      | r => String c r
      end
  end.

(** The limit on the length of a literal: with more than 640 digits, a
    positive [max_str_digits] is the most that [int] converts. *)
Definition within_limit (max_str_digits : nat) (v : Z * nat) : option Z :=
  if (640 <? v.2)%nat && (0 <? max_str_digits)%nat
     && (max_str_digits <? v.2)%nat
  then None else Some v.1.

(** [int(s)] for ASCII [s]; [None] stands for [ValueError].
    [max_str_digits] is [sys.get_int_max_str_digits()]. *)
Definition int (max_str_digits : nat) (s : string) : option Z :=
  match skip_left (skip_right s) with
  | String "+"%char s' => digits 0 0 false s' ≫= within_limit max_str_digits
  | String "-"%char s' =>
      Z.opp <$> (digits 0 0 false s' ≫= within_limit max_str_digits)
  | s' => digits 0 0 false s' ≫= within_limit max_str_digits
  end.

End Py.

(** The interpreter's limit on the digits of a literal that [int] converts:
    4300 unless set otherwise, 0 for none (as before the limit existed). *)
Class Interpreter := {
  int_max_str_digits : nat;
}.

(** ** The input manager ([src/cli/input_manager.py]) *)

(** The exceptions that the handlers of the input manager let out. *)
Inductive PyError :=
| KeyError
| IndexError.

Inductive Try (A : Type) :=
| Return (a : A)
| Throw (e : PyError).
Arguments Return {A} a.
Arguments Throw {A} e.

Definition SLASH_COMMANDS : list string := ["/copy"; "/translate"; "/save"].

Definition is_exit_command (text : string) : bool :=
  bool_decide (Text.lower text ∈ ["exit"; "quit"]).

(** Lines 58-63 of [get_input]: the lines read after "<<EOF", up to the line
    "EOF"; [None] when the terminal input ends first and [prompt] raises
    [EOFError].  The second component is what is left on the terminal. *)
Fixpoint read_lines (lines : list string) (terminal : list string)
    : option (list string * list string) :=
  match terminal with
  | [] => None
  | line :: terminal' =>
      if bool_decide (line = "EOF") then Some (lines, terminal')
      else read_lines (lines ++ Py.split Py.newline line) terminal'
  end.

Definition with_stdin (lines : list string) (w : World) : World :=
  {| self := self w; stdin := lines; trace := trace w |}.

(** [get_input]: the type of the input and its value.  It reads the terminal
    that the confirmation reads; it catches [EOFError] itself. *)
Definition get_input (w : World) : (string * string) * World :=
  match stdin w with
  | [] => (("exit", "EOF"), w)
  | text :: terminal =>
      let text := Text.rstrip text in
      if bool_decide (text = "") then (("empty", ""), with_stdin terminal w)
      else if is_exit_command text then (("exit", text), with_stdin terminal w)
      else if Py.startswith "/" text && bool_decide (text ∈ SLASH_COMMANDS)
      then (("command", text), with_stdin terminal w)
      else if bool_decide (text = "<<EOF") then
        match read_lines [] terminal with
        | Some (lines, terminal') =>
            (("chat", Py.join (String Py.newline "") lines),
             with_stdin terminal' w)
        | None => (("exit", "EOF"), with_stdin [] w)
        end
      else (("chat", text), with_stdin terminal w)
  end.

(** [_get_last_assistant_message] *)
Definition get_last_assistant_message (msgs : list Message) : option Message :=
  List.find (λ msg, bool_decide (role msg = "assistant")) (rev msgs).

(** [next((part['text'] for part in content if part['type'] == 'text'), '')]:
    a part without the key read raises [KeyError]. *)
Fixpoint first_text_or_empty (ps : list Part) : Try string :=
  match ps with
  | [] => Return ""
  | part :: ps' =>
      match part !! "type" with
      | None => Throw KeyError
      | Some type =>
          if bool_decide (type = "text") then
            match part !! "text" with
            | None => Throw KeyError
            | Some text => Return text
            end
          else first_text_or_empty ps'
      end
  end.

(** The text of a message, as both handlers take it: the content if it is
    a string ([isinstance(content, list)] fails), the text of its first text
    part or the empty string otherwise. *)
Definition strict_text (c : Content) : Try string :=
  match c with
  | Str text => Return text
  | Parts ps => first_text_or_empty ps
  end.

(** [handle_copy_command]: what it returns and, when it copies, the text that
    it hands to [pyperclip.copy]. *)
Definition handle_copy_command `{Interpreter} (command : string)
    (msgs : list Message) (last_output : option string)
    : Try (bool * option string) :=
  let parts := Py.split_whitespace command in
  match parts with
  | [] => Throw IndexError
  | part0 :: _ =>
      if bool_decide (part0 = "/copy") && bool_decide (length parts = 1) then
        match last_output with
        | Some text =>
            if truthy last_output then Return (true, Some (Text.strip text))
            else Return (true, None)
        | None => Return (true, None)
        end
      else if bool_decide (part0 = "copy") && bool_decide (length parts = 2)
      then
        match Py.int int_max_str_digits (default "" (parts !! 1)) with
        | None => Return (true, None)
        | Some msg_idx =>
            if bool_decide (0 ≤ msg_idx)%Z
               && bool_decide (msg_idx < Z.of_nat (length msgs))%Z then
              match msgs !! Z.to_nat msg_idx with
              | None => Return (true, None)
              | Some msg =>
                  match strict_text (content msg) with
                  | Return text => Return (true, Some (Text.strip text))
                  | Throw e => Throw e
                  end
              end
            else Return (true, None)
        end
      else Return (true, None)
  end.

(** [handle_translate_command] *)
Definition handle_translate_command (command : string) (msgs : list Message)
    : Try (option string) :=
  match get_last_assistant_message msgs with
  | Some last_assistant_msg =>
      match strict_text (content last_assistant_msg) with
      | Return content_to_translate =>
          if truthy (Some content_to_translate)
          then Return (Some (Text.strip content_to_translate))
          else Return None
      | Throw e => Throw e
      end
  | None => Return None
  end.

(** [handle_save_command] *)
Definition handle_save_command (command : string) (msgs : list Message)
    : bool := true.

(** [provider.translate_text(text, target_language)] *)
Class Translator := {
  translate_text : string → string → option string;
}.

(** How [run] ends: on an exit input, in its [except] clause for
    [EOFError], or with an exception that it does not catch. *)
Inductive Uncaught :=
| FromProvider
| FromHandler (e : PyError).

Inductive Ending :=
| Goodbye
| Interrupted
| Crashed (e : Uncaught).

Section Run.

Context `{Collaborators} `{Translator} `{Interpreter}.

(** Lines 254-312: one pass of the loop of [run].  On the left the loop is
    left, by [break] or by an exception; on the right it goes on, with the
    replies that the provider has still to give. *)
Definition run_pass (provider : list Reply) (w : World)
    : (Ending * World) + (list Reply * World) :=
  let '((input_type, value), w1) := get_input w in
  let s := self w1 in
  if bool_decide (input_type = "exit") then inl (Goodbye, w1)
  else if bool_decide (input_type = "empty") then inr (provider, w1)
  else if bool_decide (input_type = "command") then
    if bool_decide (value = "/copy") then
      match handle_copy_command value (messages s)
              (last_printed_text_output s) with
      | Return _ => inr (provider, w1)
      | Throw e => inl (Crashed (FromHandler e), w1)
      end
    else if bool_decide (value = "/translate") then
      match handle_translate_command value (messages s) with
      | Return content_to_translate =>
          if truthy content_to_translate then
            let translated_text :=
              translate_text (default "" content_to_translate) "Chinese" in
            if truthy translated_text then
              inr (provider,
                   on_self (set_last_printed_text_output translated_text) w1)
            else inr (provider, w1)
          else inr (provider, w1)
      | Throw e => inl (Crashed (FromHandler e), w1)
      end
    else if bool_decide (value = "/save") then
      if handle_save_command value (messages s) then inr (provider, w1)
      else inr (provider, w1)
    else inr (provider, w1)
  else
    let chat :=
      if bool_decide (input_type = "chat") then
        match process_user_message provider
                (create_message "user" (Str value) None None None) w1 with
        | (Ok rest, w2) => inr (rest, w2)
        | (Raise EOFError, w2) => inl (Interrupted, w2)
        | (Raise ProviderError, w2) => inl (Crashed FromProvider, w2)
        end
      else inr (provider, w1) in
    if Py.startswith "copy " (Text.lower value) then
      match handle_copy_command value (messages s)
              (last_printed_text_output s) with
      | Return (true, _) => inr (provider, w1)
      | Return (false, _) => chat
      | Throw e => inl (Crashed (FromHandler e), w1)
      end
    else chat.

(** The loop of [run], for [fuel] passes; [None] when the fuel runs out.
    A chat turn of the model ends, the provider having finitely many replies
    to give, and every pass that goes on has read the terminal: more passes
    than the terminal has lines are enough here.  The code itself goes on
    for as long as the provider answers with tool uses that are executed. *)
Fixpoint run_loop (fuel : nat) (provider : list Reply) (w : World)
    : option (Ending * World) :=
  match fuel with
  | 0 => None
  | S fuel' =>
      match run_pass provider w with
      | inl ending => Some ending
      | inr (provider', w') => run_loop fuel' provider' w'
      end
  end.

(** [run] from the loop on: enough fuel for the lines of the terminal. *)
Definition run (provider : list Reply) (w : World) : option (Ending * World) :=
  run_loop (S (length (stdin w))) provider w.




End Run.

(** The string "\n". *)
Definition nl : string := String Py.newline "".

(** ** Starting a session *)

(** [_load_chat], given what [service.get_chat(chat_id)] returns: [None]
    stands for the [ValueError] raised when the chat is not found.  After
    lines 80-81 [self.messages] is the list of the record, so the record
    that the manager holds shares its list with the manager. *)
Definition load_chat (existing_chat : option Chat) (s : ChatManager)
    : option ChatManager :=
  match existing_chat with
  | None => None
  | Some chat =>
      Some {| messages := messages_of chat s;
              external_id := external_id s;
              current_chat := Some {| id := id chat;
                                      chat_messages := Shared;
                                      chat_external_id :=
                                        chat_external_id chat |};
              system_prompt := system_prompt s;
              chat_id := chat_id s;
              last_printed_text_output := last_printed_text_output s;
              mcp_servers := mcp_servers s |}
  end.

Definition is_create (e : Event) : bool :=
  match e with
  | CreateChat _ _ _ => true
  | _ => false
  end.

(** [__init__]: the state of a new manager and its [continue_exist];
    [generated] is what [generate_id()] gives when it is called, [servers]
    are [bot_config.mcp_servers]. *)
Definition init (chat_id_arg : option string) (generated : string)
    (servers : list string) : ChatManager * bool :=
  ({| messages := [];
      external_id := None;
      current_chat := None;
      system_prompt := None;
      chat_id := if truthy chat_id_arg then default "" chat_id_arg
                 else generated;
      last_printed_text_output := None;
      mcp_servers := servers |},
   truthy chat_id_arg).

(** Line 214 and what follows it: [run] sets the system prompt. *)
Definition with_system_prompt (prompt : option string) (s : ChatManager)
    : ChatManager :=
  {| messages := messages s; external_id := external_id s;
     current_chat := current_chat s; system_prompt := prompt;
     chat_id := chat_id s;
     last_printed_text_output := last_printed_text_output s;
     mcp_servers := mcp_servers s |}.

(** A sample translator. *)
Definition ex_translator : Translator :=
  {| translate_text := λ text language, Some (String.append "zh: " text) |}.

(** The interpreter as it is set up by default. *)
Definition ex_interpreter : Interpreter :=
  {| int_max_str_digits := 4300 |}.

(** ** Properties *)

Section Properties.

Context `{Collaborators}.

Ltac run_monad :=
  unfold mbind, mret, M_bind, M_ret, modify, log, get, raise; simpl.

Lemma store_last_output_run c w :
  store_last_output c w
  = (Ok (), on_self (set_last_printed_text_output (text_of c)) w).
Proof. by destruct c. Qed.

Lemma prompted_0 w : prompted 0 w = w.
Proof.
  destruct w as [s i t]. unfold prompted; simpl.
  by rewrite drop_0, app_nil_r.
Qed.

Lemma prompted_S n w :
  prompted n {| self := self w; stdin := tail (stdin w);
                trace := trace w ++ [Input] |}
  = prompted (S n) w.
Proof.
  unfold prompted; simpl. f_equal.
  - destruct (stdin w); simpl; [by rewrite !drop_nil | done].
  - by rewrite <- app_assoc.
Qed.

(** The loop changes nothing but the terminal input and the trace. *)
Lemma confirmation_loop_prompted lines :
  ∀ w, stdin w = lines →
       ∃ n, (confirmation_loop lines w).2 = prompted n w ∧ 0 < n.
Proof.
  induction lines as [|line lines IH]; intros w Hw; simpl.
  - exists 1. split; [|lia]. unfold prompted. rewrite Hw. done.
  - set (w' := {| self := self w; stdin := lines;
                  trace := trace w ++ [Input] |}).
    assert (w' = prompted 1 w) as Hw'.
    { unfold prompted, w'. rewrite Hw. simpl. by rewrite drop_0. }
    repeat case_bool_decide; simpl.
    + exists 1. split; [done|lia].
    + exists 1. split; [done|lia].
    + destruct (IH w' eq_refl) as [n [Hn _]]. exists (S n).
      split; [|lia]. rewrite Hn. unfold w'.
      rewrite <- prompted_S. rewrite Hw. done.
Qed.

Lemma get_user_confirmation_prompted c sn tn w :
  ∃ n, (get_user_confirmation c sn tn w).2 = prompted n w.
Proof.
  unfold get_user_confirmation. run_monad.
  destruct (auto_confirmed _ _ _).
  - exists 0. by rewrite prompted_0.
  - destruct (confirmation_loop_prompted (stdin w) w eq_refl) as [n [Hn _]].
    by exists n.
Qed.

Lemma confirmation_loop_raises lines : ∀ w e w',
  confirmation_loop lines w = (Raise e, w') → e = EOFError.
Proof.
  induction lines as [|line lines IH]; intros w e w'; simpl.
  - by intros [= <- _].
  - repeat case_bool_decide; try done. apply IH.
Qed.

Lemma get_user_confirmation_raises c sn tn w e w' :
  get_user_confirmation c sn tn w = (Raise e, w') → e = EOFError.
Proof.
  unfold get_user_confirmation. run_monad.
  destruct (auto_confirmed _ _ _); [done|]. apply confirmation_loop_raises.
Qed.

(** *** One step of [process_assistant_message] and [process_user_message] *)

Lemma process_assistant_message_plain provider recur am w :
  contains_tool_use (content am) = false →
  process_assistant_message provider recur am w
  = (Ok (am, provider), said am w).
Proof.
  intros Hc. unfold process_assistant_message. rewrite Hc. run_monad.
  by rewrite store_last_output_run.
Qed.

Lemma process_assistant_message_malformed provider recur am w :
  contains_tool_use (content am) = true →
  extract_mcp_tool_use (directive (content am)) = None →
  process_assistant_message provider recur am w = (Ok (am, provider), w).
Proof.
  intros Hc He. unfold process_assistant_message. rewrite Hc. simpl.
  unfold directive in He. destruct (split_content (content am)) as [pl tc].
  simpl in He. by rewrite He.
Qed.

Lemma process_assistant_message_directive provider recur am w sn tn args :
  contains_tool_use (content am) = true →
  extract_mcp_tool_use (directive (content am)) = Some (sn, tn, args) →
  process_assistant_message provider recur am w
  = match get_user_confirmation (directive (content am)) (Some sn) (Some tn)
            (said (directive_message am sn tn args) w) with
    | (Raise e, w2) => (Raise e, w2)
    | (Ok false, w2) =>
        (Ok (directive_message am sn tn args, provider),
         on_self (append_message cancel_message) w2)
    | (Ok true, w2) =>
        match recur (result_message (trace w2 ++ [ExecuteTool sn tn args])
                                    sn tn args)
                    (logged (ExecuteTool sn tn args) w2) with
        | (Ok rest, w') => (Ok (directive_message am sn tn args, rest), w')
        | (Raise e, w') => (Raise e, w')
        end
    end.
Proof.
  intros Hc He. unfold process_assistant_message. rewrite Hc. simpl.
  unfold directive, directive_message in *.
  destruct (split_content (content am)) as [pl tc]. simpl in *.
  rewrite He. run_monad. rewrite store_last_output_run. simpl.
  unfold said, on_self. simpl.
  destruct (get_user_confirmation tc (Some sn) (Some tn) _) as [[[|]|e] w2];
    try done.
Qed.

Lemma process_user_message_nil um w :
  process_user_message [] um w = (Raise ProviderError, called um w).
Proof. simpl. run_monad. by rewrite store_last_output_run. Qed.

Lemma process_user_message_cons am eid provider um w :
  process_user_message ((am, eid) :: provider) um w
  = match process_assistant_message provider
            (process_user_message provider) am
            (answered eid (called um w)) with
    | (Ok r, w') => (Ok r.2, committed w')
    | (Raise e, w') => (Raise e, w')
    end.
Proof.
  simpl. run_monad. rewrite store_last_output_run. simpl.
  unfold answered, called, said, logged, on_self, committed. simpl.
  destruct (truthy eid); simpl;
    match goal with
    | |- context [process_assistant_message ?p ?r ?a ?w] =>
        destruct (process_assistant_message p r a w) as [[r'|e] w']
    end; try done;
    unfold persist_chat; run_monad; by destruct (current_chat (self w')).
Qed.

(** Every run of [process_user_message] is one of the cases of
    [resolves]. *)
Lemma process_user_message_resolves provider : ∀ um w,
  resolves provider um w (process_user_message provider um w).1
                         (process_user_message provider um w).2.
Proof.
  induction provider as [|[am eid] provider IH]; intros um w.
  - rewrite process_user_message_nil. constructor.
  - rewrite process_user_message_cons.
    destruct (contains_tool_use (content am)) eqn:Hc.
    + destruct (extract_mcp_tool_use (directive (content am)))
        as [[[sn tn] args]|] eqn:He.
      * rewrite (process_assistant_message_directive _ _ _ _ sn tn args)
          by done.
        destruct (get_user_confirmation _ _ _ _) as [[[|]|e] w2] eqn:Hg.
        -- specialize (IH (result_message (trace w2 ++ [ExecuteTool sn tn args])
                                          sn tn args)
                          (logged (ExecuteTool sn tn args) w2)).
           destruct (process_user_message provider _ _) as [[rest|e] w'];
             simpl in *.
           ++ by eapply approved.
           ++ by eapply approved_raises.
        -- simpl. by eapply denied.
        -- simpl. pose proof (get_user_confirmation_raises _ _ _ _ _ _ Hg)
             as ->. by eapply prompt_interrupted.
      * rewrite process_assistant_message_malformed by done. simpl.
        by constructor.
    + rewrite process_assistant_message_plain by done. simpl.
      by constructor.
Qed.

(** *** The confirmation gate *)




(** C6, as the code has it: when the server name and the tool name are
    non-empty, the bot has MCP servers configured, and the tool name is in
    the auto-confirm list of the configuration of the named server, the gate
    returns true and leaves the world as it is: [input()] is not called and
    no line of the terminal is consumed. *)
Theorem auto_confirm_skips_prompt
    (c : Content) (sn tn : string) (cfg : ServerConfig)
    (names : list string) (w : World) :
  sn ≠ "" → tn ≠ "" → mcp_servers (self w) ≠ [] →
  get_config sn = Some cfg → auto_confirm cfg = Some names → tn ∈ names →
  get_user_confirmation c (Some sn) (Some tn) w = (Ok true, w).
Proof.
  intros Hsn Htn Hbot Hcfg Hauto Hin.
  unfold get_user_confirmation, auto_confirmed. run_monad.
  rewrite Hcfg, Hauto.
  destruct (String.eqb_spec sn "") as [|_]; [done|].
  destruct (String.eqb_spec tn "") as [|_]; [done|]. simpl.
  rewrite (bool_decide_eq_false_2 _ Hbot).
  by rewrite (bool_decide_eq_true_2 _ Hin).
Qed.

Lemma process_user_message_called provider um w :
  process_user_message provider um w = await_reply provider (called um w).
Proof.
  destruct provider as [|[am eid] provider].
  - apply process_user_message_nil.
  - apply process_user_message_cons.
Qed.

Lemma no_tool_use_parts c :
  tool_use_parts c = [] ↔ contains_tool_use c = false.
Proof.
  destruct c as [s|ps]; simpl; [done|].
  induction ps as [|p ps IH]; simpl; [done|].
  destruct (is_tool_use p); simpl; [done|apply IH].
Qed.

Lemma some_tool_use_parts c :
  tool_use_parts c ≠ [] ↔ contains_tool_use c = true.
Proof.
  rewrite no_tool_use_parts. by destruct (contains_tool_use c).
Qed.

(** *** One assistant response *)

(** C8: an assistant response without tool-use part is appended as it is,
    and nothing else happens: the result does not depend on [recur] (no
    recursion), the answers of the provider are all left, the terminal and
    the trace are untouched (no provider, gate or executor call).  The last
    produced text becomes the whole string for a string content, the text
    of the first text-typed part for a sequence, and [None] for a sequence
    without text-typed part. *)
Theorem plain_response_is_terminal
    (provider : list Reply) (recur : Message → M (list Reply))
    (am : Message) (w : World) :
  length (tool_use_parts (content am)) = 0 →
  let w' := {| self := set_last_printed_text_output (text_of (content am))
                         (append_message am (self w));
               stdin := stdin w; trace := trace w |} in
  process_assistant_message provider recur am w = (Ok (am, provider), w')
  ∧ messages (self w') = messages (self w) ++ [am]
  ∧ (∀ s, content am = Str s → last_printed_text_output (self w') = Some s)
  ∧ (∀ pre p post,
       content am = Parts (pre ++ p :: post) →
       Forall (λ q : Part, q !! "type" ≠ Some "text") pre →
       p !! "type" = Some "text" →
       last_printed_text_output (self w') = p !! "text")
  ∧ (∀ ps,
       content am = Parts ps →
       Forall (λ q : Part, q !! "type" ≠ Some "text") ps →
       last_printed_text_output (self w') = None).
Proof.
  intros Hnone w'. apply length_zero_iff_nil, no_tool_use_parts in Hnone.
  split; [by rewrite process_assistant_message_plain|].
  split; [done|]. simpl. split; [by intros s ->|]. split.
  - intros pre p post -> Hpre Hp. simpl.
    induction Hpre as [|q pre Hq _ IH]; simpl.
    + by rewrite bool_decide_eq_true_2.
    + by rewrite bool_decide_eq_false_2.
  - intros ps -> Hps. simpl.
    induction Hps as [|q ps Hq _ IH]; simpl; [done|].
    by rewrite bool_decide_eq_false_2.
Qed.

(** C5: when the response has a tool-use part but the extractor finds no
    (server, tool, arguments) in its directive, the call returns normally
    with the assistant message and the world exactly as they were: nothing
    appended, nothing recorded in the trace (no gate, executor or provider
    call), no line of the terminal read, and no use of [recur]. *)
Theorem malformed_directive_changes_nothing
    (provider : list Reply) (recur : Message → M (list Reply))
    (am : Message) (w : World) :
  tool_use_parts (content am) ≠ [] →
  extract_mcp_tool_use (directive (content am)) = None →
  process_assistant_message provider recur am w = (Ok (am, provider), w).
Proof.
  intros Hsome He. apply some_tool_use_parts in Hsome.
  by apply process_assistant_message_malformed.
Qed.

(** C4: when the gate denies, the rewritten assistant message and then one
    synthetic user message with the fixed cancellation notice are appended,
    and the call returns: the trace gains only the [n] prompts of the gate
    (no executor call, no provider call), [recur] is not used and the
    answers of the provider are all left. *)
Theorem denied_tool_use_is_cancelled
    (provider : list Reply) (recur : Message → M (list Reply))
    (am : Message) (w : World) (sn tn : string) (args : Args) :
  tool_use_parts (content am) ≠ [] →
  extract_mcp_tool_use (directive (content am)) = Some (sn, tn, args) →
  (get_user_confirmation (directive (content am)) (Some sn) (Some tn)
     (said (directive_message am sn tn args) w)).1 = Ok false →
  ∃ (n : nat) (w' : World),
    process_assistant_message provider recur am w
    = (Ok (directive_message am sn tn args, provider), w')
    ∧ messages (self w')
      = messages (self w) ++ [directive_message am sn tn args;
                              create_message "user"
                                (Str "Tool execution cancelled by user.")
                                None None None]
    ∧ trace w' = trace w ++ replicate n Input
    ∧ stdin w' = drop n (stdin w).
Proof.
  intros Hsome He Hg. apply some_tool_use_parts in Hsome.
  destruct (get_user_confirmation_prompted (directive (content am))
              (Some sn) (Some tn) (said (directive_message am sn tn args) w))
    as [n Hn].
  exists n, (on_self (append_message cancel_message)
               (prompted n (said (directive_message am sn tn args) w))).
  rewrite (process_assistant_message_directive _ _ _ _ sn tn args) by done.
  destruct (get_user_confirmation _ _ _ _) as [r w2]. simpl in Hg, Hn.
  subst r w2. split; [done|]. simpl. by rewrite <- app_assoc.
Qed.

(** *** One user message *)

Lemma first_text_found (pre post : list Part) (p : Part) :
  Forall (λ q : Part, q !! "type" ≠ Some "text") pre →
  p !! "type" = Some "text" →
  first_text (pre ++ p :: post) = p !! "text".
Proof.
  intros Hpre Hp. induction Hpre as [|q pre Hq _ IH]; simpl.
  - by rewrite bool_decide_eq_true_2.
  - by rewrite bool_decide_eq_false_2.
Qed.

Lemma first_text_none (ps : list Part) :
  Forall (λ q : Part, q !! "type" ≠ Some "text") ps → first_text ps = None.
Proof.
  intros Hps. induction Hps as [|q ps Hq _ IH]; simpl; [done|].
  by rewrite bool_decide_eq_false_2.
Qed.

(** C10: [process_user_message] first appends the user message and takes
    the last produced text from its content, then calls the provider with
    the transcript that ends in that message; all that follows starts from
    that world [w1].  The text taken is the whole string for a string
    content; for a sequence it is the text of the first text-typed part
    [p], the parts [pre] before it being of another type (nothing when [p]
    has no text), and nothing when no part is text-typed.  So when the
    provider is called, and when its reply (with correlation id [eid])
    arrives, the last produced text is the text of the user message, not
    what was kept before; it is still so when the provider raises. *)
Theorem user_text_is_last_output_at_provider_call
    (provider : list Reply) (um : Message) (w : World) :
  let w1 := called um w in
  process_user_message provider um w = await_reply provider w1
  ∧ (∀ s, content um = Str s → last_printed_text_output (self w1) = Some s)
  ∧ (∀ pre p post,
       content um = Parts (pre ++ p :: post) →
       Forall (λ q : Part, q !! "type" ≠ Some "text") pre →
       p !! "type" = Some "text" →
       last_printed_text_output (self w1) = p !! "text")
  ∧ (∀ ps,
       content um = Parts ps →
       Forall (λ q : Part, q !! "type" ≠ Some "text") ps →
       last_printed_text_output (self w1) = None)
  ∧ messages (self w1) = messages (self w) ++ [um]
  ∧ trace w1
    = trace w ++ [CallChatCompletions (messages (self w) ++ [um])
                    (current_chat (self w)) (system_prompt (self w))]
  ∧ (∀ eid, last_printed_text_output (self (answered eid w1))
            = last_printed_text_output (self w1))
  ∧ (provider = [] →
     process_user_message provider um w = (Raise ProviderError, w1)).
Proof.
  intros w1. split; [apply process_user_message_called|].
  split; [by intros s Hs; simpl; rewrite Hs|]. split.
  { intros pre p post Hc Hpre Hp. simpl. rewrite Hc. simpl.
    by apply first_text_found. }
  split.
  { intros ps Hc Hps. simpl. rewrite Hc. simpl. by apply first_text_none. }
  split; [done|]. split; [done|]. split.
  - intros eid. unfold answered. by destruct (truthy eid).
  - intros ->. apply process_user_message_nil.
Qed.

Lemma get_user_confirmation_self c sn tn w r w' :
  get_user_confirmation c sn tn w = (r, w') →
  ∃ n, w' = prompted n w.
Proof.
  intros Hg. destruct (get_user_confirmation_prompted c sn tn w) as [n Hn].
  exists n. by rewrite Hg in Hn.
Qed.

(** C3: when the response has exactly one tool-use part, the extractor
    finds its (server, tool, arguments) and the gate approves, the round
    appends three messages (the user message that triggered it, the
    rewritten assistant message with the tool metadata, the user message
    with the result of the tool) and then calls the provider once more, with
    the transcript that ends in these three messages; the calls of the round
    are, in this order: the provider, the [n] prompts of the gate, the
    executor, the provider.  From that world [w3] on the run is that of
    [await_reply]: it raises if the provider does, ends if the next reply
    ends the turn, or goes on with the next round. *)
Theorem approved_tool_round
    (provider : list Reply) (um am : Message) (eid : option string)
    (w w2 : World) (sn tn : string) (args : Args) :
  length (tool_use_parts (content am)) = 1 →
  extract_mcp_tool_use (directive (content am)) = Some (sn, tn, args) →
  get_user_confirmation (directive (content am)) (Some sn) (Some tn)
    (said (directive_message am sn tn args) (answered eid (called um w)))
    = (Ok true, w2) →
  let dm := directive_message am sn tn args in
  let rm := result_message (trace w2 ++ [ExecuteTool sn tn args]) sn tn args in
  let w3 := called rm (logged (ExecuteTool sn tn args) w2) in
  messages (self w3) = messages (self w) ++ [um; dm; rm]
  ∧ (∃ n, trace w3
          = trace w
            ++ [CallChatCompletions (messages (self w) ++ [um])
                  (current_chat (self w)) (system_prompt (self w))]
            ++ replicate n Input
            ++ [ExecuteTool sn tn args;
                CallChatCompletions (messages (self w) ++ [um; dm; rm])
                  (current_chat (self w)) (system_prompt (self w))])
  ∧ process_user_message ((am, eid) :: provider) um w
    = match await_reply provider w3 with
      | (Ok rest, w') => (Ok rest, committed w')
      | (Raise e, w') => (Raise e, w')
      end.
Proof.
  intros Hone He Hg dm rm w3.
  assert (contains_tool_use (content am) = true) as Hc.
  { apply some_tool_use_parts. intros Hnil. by rewrite Hnil in Hone. }
  destruct (get_user_confirmation_self _ _ _ _ _ _ Hg) as [n ->].
  assert (∀ e, messages (self (answered e (called um w)))
               = messages (self w) ++ [um]
               ∧ current_chat (self (answered e (called um w)))
                 = current_chat (self w)
               ∧ system_prompt (self (answered e (called um w)))
                 = system_prompt (self w)
               ∧ trace (answered e (called um w))
                 = trace w ++ [CallChatCompletions (messages (self w) ++ [um])
                                 (current_chat (self w))
                                 (system_prompt (self w))]) as Hans.
  { intros e. unfold answered. by destruct (truthy e). }
  destruct (Hans eid) as (Hm & Hcc & Hsp & Htr).
  split; [|split].
  - subst w3. simpl. rewrite Hm. by rewrite <- !app_assoc.
  - exists n. subst w3. simpl. rewrite Hm, Hcc, Hsp, Htr.
    by rewrite <- !app_assoc.
  - rewrite process_user_message_cons.
    rewrite (process_assistant_message_directive _ _ _ _ sn tn args) by done.
    rewrite Hg. rewrite process_user_message_called. fold rm. fold w3.
    by destruct (await_reply provider w3) as [[rest|e] w'].
Qed.

(** *** What the world transformers do to the trace *)

Lemma trace_answered eid w : trace (answered eid w) = trace w.
Proof. unfold answered. by destruct (truthy eid). Qed.

Lemma committed_run w :
  ∃ c, is_commit c = true
       ∧ trace (committed w) = trace w ++ [c]
       ∧ stdin (committed w) = stdin w
       ∧ messages (self (committed w)) = messages (self w)
       ∧ external_id (self (committed w)) = external_id (self w)
       ∧ current_chat (self (committed w))
         = chat_after (current_chat (self w)) [c].
Proof.
  unfold committed, persist_chat. run_monad.
  destruct (current_chat (self w)) as [c|]; simpl.
  - by exists (UpdateChat (id c) (messages (self w)) (external_id (self w))).
  - by exists (CreateChat (messages (self w)) (external_id (self w))
                        (chat_id (self w))).
Qed.

Lemma count_app p (a b : list Event) :
  count p (a ++ b) = count p a + count p b.
Proof. unfold count. by rewrite List.filter_app, length_app. Qed.

Lemma count_cons p e (l : list Event) :
  count p (e :: l) = (if p e then 1 else 0) + count p l.
Proof. unfold count. simpl. by destruct (p e). Qed.

Lemma count_prompts p n : p Input = false → count p (replicate n Input) = 0.
Proof.
  intros Hp. unfold count. induction n as [|n IH]; simpl; [done|].
  by rewrite Hp.
Qed.


Lemma Forall_prompts (P : Event → Prop) n :
  P Input → Forall P (replicate n Input).
Proof. intros HP. apply Forall_replicate. done. Qed.

(** *** Commits of a turn *)

Lemma resolves_commits provider um w r w' :
  resolves provider um w r w' →
  match r with
  | Ok _ =>
      ∃ body commits,
        trace w' = trace w ++ body ++ commits
        ∧ Forall (λ e, is_commit e = false) body
        ∧ Forall (λ e, is_commit e = true) commits
        ∧ length commits = count is_provider_call body
        ∧ length commits = S (count is_tool_call body)
  | Raise _ =>
      ∃ body, trace w' = trace w ++ body
              ∧ Forall (λ e, is_commit e = false) body
  end.
Proof.
  induction 1 as
    [ um w
    | am eid provider um w Hc
    | am eid provider um w Hc He
    | am eid provider um w sn tn args w2 Hc He Hg
    | am eid provider um w sn tn args w2 Hc He Hg
    | am eid provider um w sn tn args w2 rest w' Hc He Hg Hrec IH
    | am eid provider um w sn tn args w2 e w' Hc He Hg Hrec IH ].
  - eexists. split; [done|]. by repeat constructor.
  - destruct (committed_run (said am (answered eid (called um w))))
      as (c & Hcom & -> & _).
    simpl. rewrite trace_answered. simpl.
    eexists [_], [c]. rewrite <- app_assoc.
    split; [done|]. by repeat constructor.
  - destruct (committed_run (answered eid (called um w)))
      as (c & Hcom & -> & _).
    rewrite trace_answered. simpl.
    eexists [_], [c]. rewrite <- app_assoc.
    split; [done|]. by repeat constructor.
  - destruct (get_user_confirmation_self _ _ _ _ _ _ Hg) as [n ->].
    simpl. rewrite trace_answered. simpl.
    eexists (_ :: replicate n Input). rewrite <- app_assoc.
    split; [done|]. constructor; [done|]. by apply Forall_prompts.
  - destruct (get_user_confirmation_self _ _ _ _ _ _ Hg) as [n ->].
    destruct (committed_run
                (on_self (append_message cancel_message)
                   (prompted n (said (directive_message am sn tn args)
                                  (answered eid (called um w))))))
      as (c & Hcom & -> & _).
    simpl. rewrite trace_answered. simpl.
    eexists (_ :: replicate n Input), [c]. rewrite <- !app_assoc.
    split; [done|].
    split; [constructor; [done|by apply Forall_prompts]|].
    split; [by repeat constructor|].
    by rewrite !count_cons, !count_prompts.
  - destruct (get_user_confirmation_self _ _ _ _ _ _ Hg) as [n ->].
    destruct IH as (body & commits & Htr & Hbody & Hcommits & Hcalls & Htools).
    destruct (committed_run w') as (c & Hcom & -> & _).
    rewrite Htr. simpl. rewrite trace_answered. simpl.
    exists ((CallChatCompletions (messages (self w) ++ [um])
               (current_chat (self w)) (system_prompt (self w))
             :: replicate n Input) ++ ExecuteTool sn tn args :: body),
           (commits ++ [c]).
    split; [by rewrite <- !app_assoc|].
    split.
    { apply Forall_app. split.
      - constructor; [done|by apply Forall_prompts].
      - by constructor. }
    split; [apply Forall_app; split; [done|by repeat constructor]|].
    rewrite length_app, !count_app, !count_cons, !count_prompts by done.
    simpl. lia.
  - destruct (get_user_confirmation_self _ _ _ _ _ _ Hg) as [n ->].
    destruct IH as (body & Htr & Hbody).
    rewrite Htr. simpl. rewrite trace_answered. simpl.
    exists ((CallChatCompletions (messages (self w) ++ [um])
               (current_chat (self w)) (system_prompt (self w))
             :: replicate n Input) ++ ExecuteTool sn tn args :: body).
    split; [by rewrite <- !app_assoc|].
    apply Forall_app. split.
    + constructor; [done|by apply Forall_prompts].
    + by constructor.
Qed.

(** C1, as the code has it: in a turn that returns, [persist_chat] runs once
    for each call of [process_user_message], that of the top level and that
    of every executed tool round, all of them after the last provider, gate
    and executor call of the turn.  The commits of a turn are as many as
    its provider calls: one more than its executed tool rounds. *)
Theorem commits_of_a_turn
    (provider : list Reply) (um : Message) (w : World)
    (rest : list Reply) (w' : World) :
  process_user_message provider um w = (Ok rest, w') →
  ∃ body commits,
    trace w' = trace w ++ body ++ commits
    ∧ Forall (λ e, is_commit e = false) body
    ∧ Forall (λ e, is_commit e = true) commits
    ∧ length commits = count is_provider_call body
    ∧ length commits = S (count is_tool_call body).
Proof.
  intros Hrun.
  pose proof (process_user_message_resolves provider um w) as Hres.
  rewrite Hrun in Hres. apply (resolves_commits _ _ _ _ _ Hres).
Qed.

(** *** The correlation id and the chat record along a session *)


Lemma current_chat_answered eid w :
  current_chat (self (answered eid w)) = current_chat (self w).
Proof. unfold answered. by destruct (truthy eid). Qed.

Lemma chat_after_app cur a b :
  chat_after cur (a ++ b) = chat_after (chat_after cur a) b.
Proof.
  revert cur. induction a as [|e a IH]; intros cur; [done|].
  destruct e; simpl; apply IH.
Qed.






Lemma run_chat_cons v inputs provider w :
  run_chat (v :: inputs) provider w
  = match process_user_message provider
            (create_message "user" (Str v) None None None) w with
    | (Ok rest, w1) => run_chat inputs rest w1
    | (Raise e, w1) => (Raise e, w1)
    end.
Proof. done. Qed.



(** *** Tool metadata in the transcript *)

Lemma messages_answered eid w :
  messages (self (answered eid w)) = messages (self w).
Proof. unfold answered. by destruct (truthy eid). Qed.

Lemma messages_committed w :
  messages (self (committed w)) = messages (self w).
Proof. by destruct (committed_run w) as (c & _ & _ & _ & Hm & _). Qed.








End Properties.


(** ** Further properties of the turn loop *)

Section MoreProperties.

Context `{Collaborators}.

Ltac unfold_monad :=
  unfold mbind, mret, M_bind, M_ret, modify, log, get, raise; simpl.

Ltac resolves_cases Hres :=
  induction Hres as
    [ um w
    | am eid provider um w Hc
    | am eid provider um w Hc He
    | am eid provider um w sn tn args w2 Hc He Hg
    | am eid provider um w sn tn args w2 Hc He Hg
    | am eid provider um w sn tn args w2 rest w' Hc He Hg Hrec IH
    | am eid provider um w sn tn args w2 e w' Hc He Hg Hrec IH ];
  try (destruct (get_user_confirmation_self _ _ _ _ _ _ Hg) as [n ->]).

Lemma stdin_answered eid w : stdin (answered eid w) = stdin w.
Proof. unfold answered. by destruct (truthy eid). Qed.

Lemma stdin_committed w : stdin (committed w) = stdin w.
Proof. by destruct (committed_run w) as (c & _ & _ & Hs & _). Qed.

(** *** The transcript only grows *)

Lemma resolves_appends provider um w r w' :
  resolves provider um w r w' →
  ∃ added, messages (self w') = messages (self w) ++ um :: added.
Proof.
  intros Hres. resolves_cases Hres;
    rewrite ?messages_committed; simpl; rewrite ?messages_answered; simpl.
  - by exists [].
  - exists [am]. by rewrite <- app_assoc.
  - by exists [].
  - eexists [_]. by rewrite <- app_assoc.
  - eexists [_; _]. by rewrite <- !app_assoc.
  - destruct IH as [added ->]. simpl. rewrite messages_answered. simpl.
    eexists (_ :: _ :: added). by rewrite <- !app_assoc.
  - destruct IH as [added ->]. simpl. rewrite messages_answered. simpl.
    eexists (_ :: _ :: added). by rewrite <- !app_assoc.
Qed.

(** X1: a call of [process_user_message], however it ends, leaves the
    messages that were in the transcript where they were and puts the user
    message right after them; a session only adds messages at the end of the
    transcript. *)
Theorem transcript_is_append_only
    (inputs : list string) (provider : list Reply) (um : Message) (w : World) :
  (∃ added,
     messages (self (process_user_message provider um w).2)
     = messages (self w) ++ um :: added)
  ∧ messages (self w) `prefix_of` messages (self (run_chat inputs provider w).2).
Proof.
  split.
  - apply (resolves_appends provider um w _ _
             (process_user_message_resolves provider um w)).
  - revert provider w. induction inputs as [|v inputs IH]; intros provider w.
    + done.
    + rewrite run_chat_cons.
      pose proof (process_user_message_resolves provider
                    (create_message "user" (Str v) None None None) w) as Hres.
      apply resolves_appends in Hres as [added Hadd].
      destruct (process_user_message provider _ w) as [[rest|e] w1];
        simpl in Hadd.
      * etrans; [|apply IH]. rewrite Hadd. by apply prefix_app_r.
      * simpl. rewrite Hadd. by apply prefix_app_r.
Qed.

(** *** Lifting a property of the turns to the sessions *)

Lemma run_chat_lift (P : World → list Event → World → Prop) :
  (∀ w, P w [] w) →
  (∀ w new1 w1 new2 w2,
     P w new1 w1 → P w1 new2 w2 → P w (new1 ++ new2) w2) →
  (∀ provider v w,
     ∃ new,
       trace (process_user_message provider
                (create_message "user" (Str v) None None None) w).2
       = trace w ++ new
       ∧ P w new (process_user_message provider
                    (create_message "user" (Str v) None None None) w).2) →
  ∀ inputs provider w,
    ∃ new, trace (run_chat inputs provider w).2 = trace w ++ new
           ∧ P w new (run_chat inputs provider w).2.
Proof.
  intros Hnil Happ Hturn inputs.
  induction inputs as [|v inputs IH]; intros provider w.
  - exists []. simpl. by rewrite app_nil_r.
  - rewrite run_chat_cons.
    destruct (Hturn provider v w) as (new1 & Htr1 & HP1).
    destruct (process_user_message provider _ w) as [[rest|e] w1];
      simpl in *; [|by exists new1].
    destruct (IH rest w1) as (new2 & Htr2 & HP2).
    exists (new1 ++ new2). rewrite Htr2, Htr1, <- app_assoc.
    split; [done|]. by eapply Happ.
Qed.

(** *** Reading the terminal *)

Lemma count_inputs n : count is_input (replicate n Input) = n.
Proof.
  unfold count. induction n as [|n IH]; simpl; [done|]. by rewrite IH.
Qed.

Lemma count_nil p : count p [] = 0.
Proof. done. Qed.

Ltac count_all :=
  repeat first [ rewrite count_cons | rewrite count_app | rewrite count_nil
               | rewrite count_inputs
               | rewrite count_prompts by done ];
  simpl.

Lemma commit_is_not_input c : is_commit c = true → is_input c = false.
Proof. by destruct c. Qed.

Lemma resolves_reads provider um w r w' :
  resolves provider um w r w' →
  ∃ new, trace w' = trace w ++ new
         ∧ stdin w' = drop (count is_input new) (stdin w).
Proof.
  intros Hres. resolves_cases Hres.
  - eexists [_]. by split.
  - destruct (committed_run (said am (answered eid (called um w))))
      as (c & Hcom & -> & -> & _).
    simpl. rewrite trace_answered, stdin_answered. simpl.
    eexists [_; c]. rewrite <- app_assoc. split; [done|].
    count_all. by rewrite (commit_is_not_input c).
  - destruct (committed_run (answered eid (called um w)))
      as (c & Hcom & -> & -> & _).
    rewrite trace_answered, stdin_answered. simpl.
    eexists [_; c]. rewrite <- app_assoc. split; [done|].
    count_all. by rewrite (commit_is_not_input c).
  - simpl. rewrite trace_answered, stdin_answered. simpl.
    eexists (_ :: replicate n Input). rewrite <- app_assoc. split; [done|].
    count_all. done.
  - destruct (committed_run
                (on_self (append_message cancel_message)
                   (prompted n (said (directive_message am sn tn args)
                                  (answered eid (called um w))))))
      as (c & Hcom & -> & -> & _).
    simpl. rewrite trace_answered, stdin_answered. simpl.
    eexists (_ :: replicate n Input ++ [c]). rewrite <- !app_assoc.
    split; [done|]. count_all. rewrite (commit_is_not_input c) by done.
    f_equal; lia.
  - destruct IH as (new & Htr & Hin).
    destruct (committed_run w') as (c & Hcom & -> & -> & _).
    rewrite Htr, Hin. simpl. rewrite trace_answered, stdin_answered. simpl.
    eexists (_ :: replicate n Input ++ (ExecuteTool sn tn args :: new) ++ [c]).
    rewrite <- !app_assoc. split; [done|]. count_all.
    rewrite (commit_is_not_input c) by done. rewrite drop_drop.
    f_equal; lia.
  - destruct IH as (new & Htr & Hin).
    rewrite Htr, Hin. simpl. rewrite trace_answered, stdin_answered. simpl.
    eexists (_ :: replicate n Input ++ ExecuteTool sn tn args :: new).
    rewrite <- !app_assoc. split; [done|]. count_all.
    rewrite drop_drop. f_equal; lia.
Qed.

(** X2: in the chat turns of a session the terminal is read by [input()] of
    the confirmation only: whatever the outcome, the lines left on the terminal are
    the lines before without as many as there were calls of [input()]. *)
Theorem terminal_is_read_by_confirmation_only
    (inputs : list string) (provider : list Reply) (w : World) :
  ∃ new,
    trace (run_chat inputs provider w).2 = trace w ++ new
    ∧ stdin (run_chat inputs provider w).2
      = drop (count is_input new) (stdin w).
Proof.
  apply (run_chat_lift
           (λ w new w', stdin w' = drop (count is_input new) (stdin w))).
  - done.
  - intros w0 new1 w1 new2 w2 H1 H2. rewrite H2, H1, drop_drop, count_app.
    f_equal; lia.
  - intros p v w0.
    apply (resolves_reads p _ w0 _ _ (process_user_message_resolves p _ w0)).
Qed.

(** *** What a session never changes *)

Lemma committed_frame w :
  system_prompt (self (committed w)) = system_prompt (self w)
  ∧ chat_id (self (committed w)) = chat_id (self w)
  ∧ mcp_servers (self (committed w)) = mcp_servers (self w)
  ∧ last_printed_text_output (self (committed w))
    = last_printed_text_output (self w).
Proof.
  unfold committed, persist_chat. unfold_monad.
  by destruct (current_chat (self w)).
Qed.

Lemma answered_frame eid w :
  system_prompt (self (answered eid w)) = system_prompt (self w)
  ∧ chat_id (self (answered eid w)) = chat_id (self w)
  ∧ mcp_servers (self (answered eid w)) = mcp_servers (self w)
  ∧ last_printed_text_output (self (answered eid w))
    = last_printed_text_output (self w).
Proof. unfold answered. by destruct (truthy eid). Qed.

Lemma same_settings_committed w : same_settings w (committed w).
Proof. destruct (committed_frame w) as (? & ? & ? & _). by split_and!. Qed.

Lemma same_settings_answered eid w : same_settings w (answered eid w).
Proof. destruct (answered_frame eid w) as (? & ? & ? & _). by split_and!. Qed.

Lemma same_settings_trans w1 w2 w3 :
  same_settings w1 w2 → same_settings w2 w3 → same_settings w1 w3.
Proof.
  intros (? & ? & ?) (? & ? & ?). split_and!; congruence.
Qed.

Lemma resolves_settings provider um w r w' :
  resolves provider um w r w' → same_settings w w'.
Proof.
  intros Hres. resolves_cases Hres.
  - by split_and!.
  - eapply same_settings_trans; [|apply same_settings_committed].
    eapply same_settings_trans; [|by split_and!].
    eapply same_settings_trans; [|apply same_settings_answered].
    by split_and!.
  - eapply same_settings_trans; [|apply same_settings_committed].
    eapply same_settings_trans; [|apply same_settings_answered].
    by split_and!.
  - eapply same_settings_trans; [|by split_and!].
    eapply same_settings_trans; [|apply same_settings_answered].
    by split_and!.
  - eapply same_settings_trans; [|apply same_settings_committed].
    eapply same_settings_trans; [|by split_and!].
    eapply same_settings_trans; [|apply same_settings_answered].
    by split_and!.
  - eapply same_settings_trans; [|apply same_settings_committed].
    eapply same_settings_trans; [|apply IH].
    eapply same_settings_trans; [|by split_and!].
    eapply same_settings_trans; [|apply same_settings_answered].
    by split_and!.
  - eapply same_settings_trans; [|apply IH].
    eapply same_settings_trans; [|by split_and!].
    eapply same_settings_trans; [|apply same_settings_answered].
    by split_and!.
Qed.

(** X3: a session never changes the system prompt, the id under which a new
    chat is created, or the MCP servers of the bot, whatever the provider, the
    tools and the user do. *)
Theorem session_keeps_settings
    (inputs : list string) (provider : list Reply) (w : World) :
  system_prompt (self (run_chat inputs provider w).2) = system_prompt (self w)
  ∧ chat_id (self (run_chat inputs provider w).2) = chat_id (self w)
  ∧ mcp_servers (self (run_chat inputs provider w).2) = mcp_servers (self w).
Proof.
  destruct (run_chat_lift (λ w _ w', same_settings w w')) with
    (inputs := inputs) (provider := provider) (w := w) as (new & _ & Hs).
  - intros w0. by split_and!.
  - intros w0 _ w1 _ w2. apply same_settings_trans.
  - intros p v w0. exists (drop (length (trace w0))
                             (trace (process_user_message p
                                (create_message "user" (Str v) None None None)
                                w0).2)).
    pose proof (process_user_message_resolves p
                  (create_message "user" (Str v) None None None) w0) as Hres.
    split; [|by apply resolves_settings in Hres].
    apply resolves_reads in Hres as (new' & -> & _).
    by rewrite drop_app_length.
  - done.
Qed.

(** *** What the commits write *)

Lemma commit_chain_app cur cid a b :
  commit_chain cur cid (a ++ b)
  ↔ commit_chain cur cid a ∧ commit_chain (chat_after cur a) cid b.
Proof.
  revert cur. induction a as [|e a IH]; intros cur; simpl; [tauto|].
  destruct e; simpl; rewrite ?IH; tauto.
Qed.

Lemma commit_chain_prompts cur cid n :
  commit_chain cur cid (replicate n Input).
Proof. induction n as [|n IH]; [done|apply IH]. Qed.

Lemma committed_writes w :
  ∃ c, is_commit c = true
       ∧ trace (committed w) = trace w ++ [c]
       ∧ written c = Some (messages (self w), external_id (self w))
       ∧ commit_chain (current_chat (self w)) (chat_id (self w)) [c]
       ∧ current_chat (self (committed w))
         = chat_after (current_chat (self w)) [c].
Proof.
  unfold committed, persist_chat. unfold_monad.
  destruct (current_chat (self w)) as [ch|] eqn:Hcur; simpl.
  - exists (UpdateChat (id ch) (messages (self w)) (external_id (self w))).
    split_and!; try done. by exists ch.
  - by exists (CreateChat (messages (self w)) (external_id (self w))
                        (chat_id (self w))).
Qed.

Lemma chained_trans w new1 w1 new2 w2 :
  chained w new1 w1 → chained w1 new2 w2 → chained w (new1 ++ new2) w2.
Proof.
  intros (Hc1 & Hcur1 & Hid1) (Hc2 & Hcur2 & Hid2). unfold chained.
  rewrite commit_chain_app, chat_after_app, Hcur2, Hcur1, Hid2, Hid1.
  rewrite Hcur1, Hid1 in Hc2. by split_and!.
Qed.

Lemma chained_committed w :
  ∃ c, is_commit c = true ∧ trace (committed w) = trace w ++ [c]
       ∧ chained w [c] (committed w).
Proof.
  destruct (committed_writes w) as (c & Hcom & Htr & _ & Hch & Hcur).
  exists c. split_and!; try done.
  by destruct (committed_frame w) as (_ & ? & _).
Qed.

Lemma chained_silent w new w' :
  current_chat (self w') = current_chat (self w) →
  chat_id (self w') = chat_id (self w) →
  Forall (λ e, is_commit e = false) new →
  chained w new w'.
Proof.
  intros Hcur Hid Hnew. unfold chained. rewrite Hcur, Hid.
  generalize (current_chat (self w)) as cur. intros cur.
  induction Hnew as [|e new He _ IH]; [done|].
  destruct e; try done; simpl; apply IH.
Qed.

Lemma chat_id_answered eid w : chat_id (self (answered eid w)) = chat_id (self w).
Proof. by destruct (answered_frame eid w) as (_ & ? & _). Qed.

Lemma resolves_chained provider um w r w' :
  resolves provider um w r w' →
  ∃ new, trace w' = trace w ++ new ∧ chained w new w'.
Proof.
  intros Hres. resolves_cases Hres.
  - eexists [_]. split; [done|]. by apply chained_silent; repeat constructor.
  - destruct (chained_committed (said am (answered eid (called um w))))
      as (c & Hcom & -> & Hch).
    simpl. rewrite trace_answered. simpl. rewrite <- app_assoc.
    eexists ([_] ++ [c]). split; [done|].
    eapply chained_trans; [|exact Hch].
    apply chained_silent; simpl;
      rewrite ?current_chat_answered, ?chat_id_answered;
      by repeat constructor.
  - destruct (chained_committed (answered eid (called um w)))
      as (c & Hcom & -> & Hch).
    rewrite trace_answered. simpl. rewrite <- app_assoc.
    eexists ([_] ++ [c]). split; [done|].
    eapply chained_trans; [|exact Hch].
    apply chained_silent; simpl;
      rewrite ?current_chat_answered, ?chat_id_answered;
      by repeat constructor.
  - simpl. rewrite trace_answered. simpl. rewrite <- app_assoc.
    eexists (_ :: replicate n Input). split; [done|].
    apply chained_silent; simpl;
      rewrite ?current_chat_answered, ?chat_id_answered; try done.
    constructor; [done|]. by apply Forall_prompts.
  - destruct (chained_committed
                (on_self (append_message cancel_message)
                   (prompted n (said (directive_message am sn tn args)
                                  (answered eid (called um w))))))
      as (c & Hcom & -> & Hch).
    simpl. rewrite trace_answered. simpl. rewrite <- !app_assoc.
    eexists ((_ :: replicate n Input) ++ [c]). split; [done|].
    eapply chained_trans; [|exact Hch].
    apply chained_silent; simpl;
      rewrite ?current_chat_answered, ?chat_id_answered; try done.
    constructor; [done|]. by apply Forall_prompts.
  - destruct IH as (new & Htr & Hin).
    destruct (chained_committed w') as (c & Hcom & -> & Hch).
    rewrite Htr. simpl. rewrite trace_answered. simpl. rewrite <- !app_assoc.
    exists (((CallChatCompletions (messages (self w) ++ [um])
                  (current_chat (self w)) (system_prompt (self w))
              :: replicate n Input ++ [ExecuteTool sn tn args]) ++ new)
            ++ [c]).
    split; [simpl; by rewrite <- !app_assoc|].
    eapply chained_trans; [|exact Hch].
    eapply chained_trans; [|exact Hin].
    apply chained_silent; simpl;
      rewrite ?current_chat_answered, ?chat_id_answered; try done.
    constructor; [done|]. apply Forall_app. split; [|by repeat constructor].
    by apply Forall_prompts.
  - destruct IH as (new & Htr & Hin).
    rewrite Htr. simpl. rewrite trace_answered. simpl. rewrite <- !app_assoc.
    exists ((CallChatCompletions (messages (self w) ++ [um])
                  (current_chat (self w)) (system_prompt (self w))
             :: replicate n Input ++ [ExecuteTool sn tn args]) ++ new).
    split; [simpl; by rewrite <- !app_assoc|].
    eapply chained_trans; [|exact Hin].
    apply chained_silent; simpl;
      rewrite ?current_chat_answered, ?chat_id_answered; try done.
    constructor; [done|]. apply Forall_app. split; [|by repeat constructor].
    by apply Forall_prompts.
Qed.

(** X4: along a session the calls of the chat service follow one another as
    [persist_chat] has them: [create_chat] is called only while the manager
    holds no chat record, with the pre-generated chat id, hence at most once
    and only in a session that started without a record; every other commit
    is an [update_chat] under the id of the record that the service returned
    for the commit before (or of the record the session started with). *)
Theorem commits_form_a_chain
    (inputs : list string) (provider : list Reply) (w : World) :
  ∃ new,
    trace (run_chat inputs provider w).2 = trace w ++ new
    ∧ commit_chain (current_chat (self w)) (chat_id (self w)) new
    ∧ current_chat (self (run_chat inputs provider w).2)
      = chat_after (current_chat (self w)) new.
Proof.
  destruct (run_chat_lift chained) with
    (inputs := inputs) (provider := provider) (w := w)
    as (new & Htr & Hch & Hcur & _).
  - intros w0. by apply chained_silent.
  - apply chained_trans.
  - intros p v w0.
    apply (resolves_chained p _ w0 _ _ (process_user_message_resolves p _ w0)).
  - by exists new.
Qed.

Lemma committed_final_write w :
  ∃ c, is_commit c = true
       ∧ trace (committed w) = trace w ++ [c]
       ∧ written c = Some (messages (self (committed w)),
                           external_id (self (committed w)))
       ∧ messages (self (committed w)) = messages (self w)
       ∧ external_id (self (committed w)) = external_id (self w).
Proof.
  destruct (committed_writes w) as (c & Hcom & Htr & Hwr & _).
  destruct (committed_run w) as (_ & _ & _ & _ & Hm & Hid & _).
  exists c. rewrite Hm, Hid. by split_and!.
Qed.

Lemma resolves_final_writes provider um w r w' :
  resolves provider um w r w' →
  ∀ rest, r = Ok rest →
  ∃ body commits,
    trace w' = trace w ++ body ++ commits
    ∧ Forall (λ e, is_commit e = false) body
    ∧ commits ≠ []
    ∧ Forall (λ e, written e
                   = Some (messages (self w'), external_id (self w')))
             commits.
Proof.
  intros Hres. resolves_cases Hres; intros rest0 Hr; try done.
  - destruct (committed_final_write (said am (answered eid (called um w))))
      as (c & Hcom & Htr & Hwr & _).
    exists [CallChatCompletions (messages (self w) ++ [um])
              (current_chat (self w)) (system_prompt (self w))], [c].
    split_and!; try done; [|by repeat constructor|by repeat constructor].
    rewrite Htr. simpl. rewrite trace_answered. simpl.
    by rewrite <- app_assoc.
  - destruct (committed_final_write (answered eid (called um w)))
      as (c & Hcom & Htr & Hwr & _).
    exists [CallChatCompletions (messages (self w) ++ [um])
              (current_chat (self w)) (system_prompt (self w))], [c].
    split_and!; try done; [|by repeat constructor|by repeat constructor].
    rewrite Htr. rewrite trace_answered. simpl.
    by rewrite <- app_assoc.
  - destruct (committed_final_write
                (on_self (append_message cancel_message)
                   (prompted n (said (directive_message am sn tn args)
                                  (answered eid (called um w))))))
      as (c & Hcom & Htr & Hwr & _).
    exists (CallChatCompletions (messages (self w) ++ [um])
              (current_chat (self w)) (system_prompt (self w))
            :: replicate n Input), [c].
    split_and!; try done; [| |by repeat constructor].
    + rewrite Htr. simpl. rewrite trace_answered. simpl.
      by rewrite <- !app_assoc.
    + constructor; [done|]. by apply Forall_prompts.
  - destruct (IH rest eq_refl) as (body & commits & Htr' & Hbody & Hne & Hwr').
    destruct (committed_final_write w') as (c & Hcom & Htr & Hwr & Hm & Hid).
    exists ((CallChatCompletions (messages (self w) ++ [um])
               (current_chat (self w)) (system_prompt (self w))
             :: replicate n Input) ++ ExecuteTool sn tn args :: body),
           (commits ++ [c]).
    split_and!.
    + rewrite Htr, Htr'. simpl. rewrite trace_answered. simpl.
      by rewrite <- !app_assoc.
    + apply Forall_app. split.
      * constructor; [done|]. by apply Forall_prompts.
      * by constructor.
    + by destruct commits.
    + apply Forall_app. split; [|by repeat constructor].
      by rewrite Hm, Hid.
Qed.

(** X5: the commits of a turn that returns all hand the same data to the
    chat service: the transcript and the correlation id that the manager
    holds when the turn returns.  So after such a turn the last write holds
    the whole transcript, and the commits of the inner tool rounds write
    nothing else than the last one. *)
Theorem commits_write_final_transcript
    (provider : list Reply) (um : Message) (w : World)
    (rest : list Reply) (w' : World) :
  process_user_message provider um w = (Ok rest, w') →
  ∃ body commits,
    trace w' = trace w ++ body ++ commits
    ∧ Forall (λ e, is_commit e = false) body
    ∧ commits ≠ []
    ∧ Forall (λ e, written e
                   = Some (messages (self w'), external_id (self w')))
             commits.
Proof.
  intros Hrun.
  pose proof (process_user_message_resolves provider um w) as Hres.
  rewrite Hrun in Hres. by apply (resolves_final_writes _ _ _ _ _ Hres rest).
Qed.

(** *** What [/copy] finds after a turn *)

Lemma last_output_committed w :
  last_printed_text_output (self (committed w))
  = last_printed_text_output (self w).
Proof. by destruct (committed_frame w) as (_ & _ & _ & ?). Qed.

Lemma last_output_answered eid w :
  last_printed_text_output (self (answered eid w))
  = last_printed_text_output (self w).
Proof. by destruct (answered_frame eid w) as (_ & _ & _ & ?). Qed.

Lemma resolves_last_output provider um w r w' :
  resolves provider um w r w' →
  ∀ rest, r = Ok rest →
  (∃ m, last (messages (self w')) = Some m
        ∧ last_printed_text_output (self w') = text_of (content m))
  ∨ (∃ pre dm, messages (self w') = pre ++ [dm; cancel_message]
               ∧ last_printed_text_output (self w') = text_of (content dm)).
Proof.
  intros Hres. resolves_cases Hres; intros rest0 Hr; try done;
    rewrite ?messages_committed, ?last_output_committed.
  - left. exists am. simpl. by rewrite last_snoc.
  - left. exists um. rewrite messages_answered, last_output_answered. simpl.
    by rewrite last_snoc.
  - right. simpl. rewrite messages_answered. simpl.
    exists (messages (self w) ++ [um]), (directive_message am sn tn args).
    by rewrite <- !app_assoc.
  - by apply (IH rest).
Qed.

(** X6: when a turn returns, the text kept for [/copy] is the text of the
    last message of the transcript, except after a cancelled tool use: the
    transcript then ends in the cancellation notice, and the text kept is
    that of the assistant message before it. *)
Theorem last_output_after_a_turn
    (provider : list Reply) (um : Message) (w : World)
    (rest : list Reply) (w' : World) :
  process_user_message provider um w = (Ok rest, w') →
  (∃ m, last (messages (self w')) = Some m
        ∧ last_printed_text_output (self w') = text_of (content m))
  ∨ (∃ pre dm,
       messages (self w')
       = pre ++ [dm; create_message "user"
                       (Str "Tool execution cancelled by user.")
                       None None None]
       ∧ last_printed_text_output (self w') = text_of (content dm)).
Proof.
  intros Hrun.
  pose proof (process_user_message_resolves provider um w) as Hres.
  rewrite Hrun in Hres. by apply (resolves_last_output _ _ _ _ _ Hres rest).
Qed.

(** *** A turn that raises *)

Lemma chat_after_silent cur new :
  Forall (λ e, is_commit e = false) new → chat_after cur new = cur.
Proof.
  induction 1 as [|e new He _ IH]; [done|]. by destruct e.
Qed.

(** X7: a turn that ends in an exception (the provider fails, or the
    terminal input ends at the confirmation) has made no commit, in none of
    its rounds, while the transcript in memory has grown by the user message
    and whatever else the turn appended.  [self.current_chat] is the object
    that it was before the turn; a record with a list of its own shows what
    it showed, and a record that shares its list with the manager, as the
    one of [_load_chat] does, shows the grown transcript. *)
Theorem raising_turn_is_not_persisted
    (provider : list Reply) (um : Message) (w : World) (e : Exn) (w' : World) :
  process_user_message provider um w = (Raise e, w') →
  ∃ new added,
    trace w' = trace w ++ new
    ∧ Forall (λ ev, is_commit ev = false) new
    ∧ current_chat (self w') = current_chat (self w)
    ∧ messages (self w') = messages (self w) ++ um :: added
    ∧ ∀ chat,
        current_chat (self w) = Some chat →
        messages_of chat (self w')
        = match chat_messages chat with
          | Own msgs => msgs
          | Shared => messages (self w) ++ um :: added
          end.
Proof.
  intros Hrun.
  pose proof (process_user_message_resolves provider um w) as Hres.
  rewrite Hrun in Hres. simpl in Hres.
  destruct (resolves_commits _ _ _ _ _ Hres) as (new & Htr & Hnew).
  destruct (resolves_appends _ _ _ _ _ Hres) as (added & Hadd).
  destruct (resolves_chained _ _ _ _ _ Hres) as (new' & Htr' & _ & Hcur & _).
  rewrite Htr in Htr'. apply app_inv_head in Htr' as <-.
  exists new, added. split_and!; try done.
  - by rewrite Hcur, chat_after_silent.
  - intros chat _. unfold messages_of. by destruct (chat_messages chat).
Qed.

(** *** What the provider is passed *)

Lemma calls_end_with_user_prompts n :
  calls_end_with_user (replicate n Input).
Proof. by apply Forall_prompts. Qed.

Lemma resolves_calls_user provider um w r w' :
  resolves provider um w r w' →
  role um = "user" →
  ∃ new, trace w' = trace w ++ new ∧ calls_end_with_user new.
Proof.
  unfold calls_end_with_user.
  intros Hres. resolves_cases Hres; intros Hum.
  - eexists [_]. split; [done|]. repeat constructor.
    exists um. simpl. by rewrite last_snoc.
  - destruct (committed_run (said am (answered eid (called um w))))
      as (c & Hcom & -> & _).
    simpl. rewrite trace_answered. simpl. rewrite <- app_assoc.
    eexists [_; c]. split; [done|]. repeat constructor.
    + exists um. simpl. by rewrite last_snoc.
    + by destruct c.
  - destruct (committed_run (answered eid (called um w)))
      as (c & Hcom & -> & _).
    rewrite trace_answered. simpl. rewrite <- app_assoc.
    eexists [_; c]. split; [done|]. repeat constructor.
    + exists um. simpl. by rewrite last_snoc.
    + by destruct c.
  - simpl. rewrite trace_answered. simpl. rewrite <- app_assoc.
    eexists (_ :: replicate n Input). split; [done|]. constructor.
    + exists um. simpl. by rewrite last_snoc.
    + by apply Forall_prompts.
  - destruct (committed_run
                (on_self (append_message cancel_message)
                   (prompted n (said (directive_message am sn tn args)
                                  (answered eid (called um w))))))
      as (c & Hcom & -> & _).
    simpl. rewrite trace_answered. simpl. rewrite <- !app_assoc.
    eexists (_ :: replicate n Input ++ [c]). split; [done|]. constructor.
    + exists um. simpl. by rewrite last_snoc.
    + apply Forall_app. split; [by apply Forall_prompts|].
      repeat constructor. by destruct c.
  - destruct (IH eq_refl) as (new & Htr & Hnew).
    destruct (committed_run w') as (c & Hcom & -> & _).
    rewrite Htr. simpl. rewrite trace_answered. simpl. rewrite <- !app_assoc.
    exists (CallChatCompletions (messages (self w) ++ [um])
              (current_chat (self w)) (system_prompt (self w))
            :: replicate n Input ++ [ExecuteTool sn tn args] ++ new ++ [c]).
    split; [done|]. constructor.
    + exists um. simpl. by rewrite last_snoc.
    + apply Forall_app. split; [by apply Forall_prompts|].
      apply Forall_app. split; [by repeat constructor|].
      apply Forall_app. split; [done|]. repeat constructor. by destruct c.
  - destruct (IH eq_refl) as (new & Htr & Hnew).
    rewrite Htr. simpl. rewrite trace_answered. simpl. rewrite <- !app_assoc.
    exists (CallChatCompletions (messages (self w) ++ [um])
              (current_chat (self w)) (system_prompt (self w))
            :: replicate n Input ++ [ExecuteTool sn tn args] ++ new).
    split; [done|]. constructor.
    + exists um. simpl. by rewrite last_snoc.
    + apply Forall_app. split; [by apply Forall_prompts|].
      apply Forall_app. split; [by repeat constructor|done].
Qed.

(** X8: in a session every call of the provider is passed a transcript whose
    last message has the role "user": the input of the user, or the result of
    a tool.  The provider is never called on a transcript that ends in an
    assistant message, and never on an empty one. *)
Theorem provider_is_called_after_a_user_message
    (inputs : list string) (provider : list Reply) (w : World) :
  ∃ new,
    trace (run_chat inputs provider w).2 = trace w ++ new
    ∧ Forall (λ e,
                match e with
                | CallChatCompletions msgs _ _ =>
                    ∃ m, last msgs = Some m ∧ role m = "user"
                | _ => True
                end) new.
Proof.
  apply (run_chat_lift (λ _ new _, calls_end_with_user new)).
  - intros _. constructor.
  - intros _ new1 _ new2 _ H1 H2. apply Forall_app. by split.
  - intros p v w0.
    by apply (resolves_calls_user p _ w0 _ _
                (process_user_message_resolves p _ w0)).
Qed.

(** *** The confirmation when no answer is recognised *)

Lemma confirmation_loop_no_answer (lines : list string) : ∀ w,
  Forall (λ l, normalized l ∉ ["y"; "yes"; "n"; "no"]) lines →
  confirmation_loop lines w
  = (Raise EOFError,
     {| self := self w; stdin := [];
        trace := trace w ++ replicate (S (length lines)) Input |}).
Proof.
  induction lines as [|l lines IH]; intros w Hall; simpl; [done|].
  fold (normalized l). apply Forall_cons in Hall as [Hl Hall].
  rewrite !bool_decide_eq_false_2
    by (rewrite !elem_of_cons, elem_of_nil in *; intuition congruence).
  rewrite IH by done. simpl. by rewrite <- app_assoc.
Qed.

(** X9: when the tool is not auto-confirmed and none of the lines left on
    the terminal, all in ASCII, is a recognised answer, the confirmation
    reads them all, calls [input()] once more and lets its [EOFError] out:
    it returns neither true nor false. *)
Theorem confirmation_without_answer_raises
    (c : Content) (sn tn : option string) (w : World) :
  auto_confirmed sn tn (mcp_servers (self w)) = false →
  Forall (λ l, Text.isascii l = true) (stdin w) →
  Forall (λ l, normalized l ∉ ["y"; "yes"; "n"; "no"]) (stdin w) →
  get_user_confirmation c sn tn w
  = (Raise EOFError,
     {| self := self w; stdin := [];
        trace := trace w ++ replicate (S (length (stdin w))) Input |}).
Proof.
  intros Hauto _ Hall. unfold get_user_confirmation. unfold_monad.
  rewrite Hauto. by apply confirmation_loop_no_answer.
Qed.

End MoreProperties.

(** ** Properties of the input manager *)

Section InputManagerProperties.

Context `{Interpreter}.

Lemma split_not_nil sep s : Py.split sep s ≠ [].
Proof.
  destruct s as [|c s]; simpl; [done|].
  destruct (Ascii.eqb c sep); [done|]. by destruct (Py.split sep s).
Qed.

Lemma join_cons sep field fields :
  fields ≠ [] →
  Py.join sep (field :: fields)
  = String.append field (String.append sep (Py.join sep fields)).
Proof. by destruct fields. Qed.

(** Splitting at a character and joining with it gives the string back. *)
Lemma join_split sep s : Py.join (String sep "") (Py.split sep s) = s.
Proof.
  induction s as [|c s IH]; simpl; [done|].
  destruct (Ascii.eqb_spec c sep) as [->|Hne].
  - rewrite join_cons by apply split_not_nil. simpl. by rewrite IH.
  - pose proof (split_not_nil sep s) as Hnil.
    destruct (Py.split sep s) as [|field fields]; [done|].
    destruct fields as [|field' fields].
    + simpl in *. by rewrite IH.
    + rewrite join_cons by done. rewrite join_cons in IH by done.
      by rewrite <- IH.
Qed.

Lemma append_assoc (a b c : string) :
  String.append (String.append a b) c = String.append a (String.append b c).
Proof.
  induction a as [|x a IH]; [done|].
  change (String x (String.append (String.append a b) c)
          = String x (String.append a (String.append b c))).
  by f_equal.
Qed.

Lemma join_app sep (a b : list string) :
  a ≠ [] → b ≠ [] →
  Py.join sep (a ++ b)
  = String.append (Py.join sep a) (String.append sep (Py.join sep b)).
Proof.
  intros Ha Hb. induction a as [|x a IH]; [done|].
  destruct a as [|y a].
  - simpl app. by rewrite join_cons.
  - change ((x :: y :: a) ++ b) with (x :: ((y :: a) ++ b)).
    rewrite join_cons by done. rewrite IH by done.
    rewrite (join_cons sep x (y :: a)) by done.
    by rewrite !append_assoc.
Qed.

Lemma join_split_lines sep (lines : list string) :
  Py.join (String sep "") (concat (Py.split sep <$> lines))
  = Py.join (String sep "") lines.
Proof.
  induction lines as [|line lines IH]; [done|].
  rewrite fmap_cons. simpl concat.
  destruct lines as [|line' lines].
  - simpl. rewrite app_nil_r. apply join_split.
  - rewrite join_app.
    + rewrite IH, join_split. by rewrite (join_cons _ line).
    + apply split_not_nil.
    + rewrite fmap_cons. simpl concat.
      pose proof (split_not_nil sep line'). by destruct (Py.split sep line').
Qed.

Lemma read_lines_terminated (body rest : list string) : ∀ lines,
  "EOF" ∉ body →
  read_lines lines (body ++ "EOF" :: rest)
  = Some (lines ++ concat (Py.split Py.newline <$> body), rest).
Proof.
  induction body as [|line body IH]; intros lines Hbody; simpl.
  - by rewrite app_nil_r.
  - apply not_elem_of_cons in Hbody as [Hline Hbody].
    rewrite bool_decide_eq_false_2 by done.
    rewrite IH by done. by rewrite <- app_assoc.
Qed.

Lemma read_lines_unterminated (body : list string) : ∀ lines,
  "EOF" ∉ body → read_lines lines body = None.
Proof.
  induction body as [|line body IH]; intros lines Hbody; simpl; [done|].
  apply not_elem_of_cons in Hbody as [Hline Hbody].
  rewrite bool_decide_eq_false_2 by done. by apply IH.
Qed.

(** X10: a multi-line input.  After a line that is "<<EOF" up to trailing
    whitespace, [get_input] reads the lines up to the first line "EOF" and
    returns them as one chat input, joined by line feeds: splitting each line
    at its line feeds and joining all the pieces again changes nothing.  The
    lines after "EOF" are left on the terminal.  With no line in between the
    chat input is the empty string. *)
Theorem heredoc_is_joined
    (w : World) (first : string) (body rest : list string) :
  stdin w = first :: body ++ "EOF" :: rest →
  Text.rstrip first = "<<EOF" →
  "EOF" ∉ body →
  get_input w = (("chat", Py.join nl body), with_stdin rest w).
Proof.
  intros Hin Hfirst Hbody. unfold get_input. rewrite Hin, Hfirst. simpl.
  rewrite read_lines_terminated by done. simpl.
  by rewrite join_split_lines.
Qed.

(** X11: a multi-line input that is never closed.  When no line "EOF"
    follows "<<EOF", [get_input] reads the terminal to its end and returns an
    exit: the lines typed after "<<EOF" are dropped, not sent. *)
Theorem unterminated_heredoc_exits
    (w : World) (first : string) (body : list string) :
  stdin w = first :: body →
  Text.rstrip first = "<<EOF" →
  "EOF" ∉ body →
  get_input w = (("exit", "EOF"), with_stdin [] w).
Proof.
  intros Hin Hfirst Hbody. unfold get_input. rewrite Hin, Hfirst. simpl.
  by rewrite read_lines_unterminated.
Qed.

(** *** The last assistant message *)

Lemma get_last_assistant_message_snoc (msgs : list Message) (m : Message) :
  get_last_assistant_message (msgs ++ [m])
  = if bool_decide (role m = "assistant") then Some m
    else get_last_assistant_message msgs.
Proof. unfold get_last_assistant_message. by rewrite rev_unit. Qed.

Lemma get_last_assistant_message_found (pre post : list Message) (m : Message) :
  role m = "assistant" →
  Forall (λ m', role m' ≠ "assistant") post →
  get_last_assistant_message (pre ++ m :: post) = Some m.
Proof.
  intros Hm. induction post as [|x post IH] using rev_ind; intros Hpost.
  - rewrite get_last_assistant_message_snoc. by rewrite bool_decide_eq_true_2.
  - apply Forall_app in Hpost as [Hpost Hx]. rewrite Forall_singleton in Hx.
    change (pre ++ m :: post ++ [x]) with (pre ++ (m :: post) ++ [x]).
    rewrite app_assoc, get_last_assistant_message_snoc.
    rewrite bool_decide_eq_false_2 by done. by apply IH.
Qed.

Lemma get_last_assistant_message_cases (msgs : list Message) :
  match get_last_assistant_message msgs with
  | Some m =>
      ∃ pre post, msgs = pre ++ m :: post ∧ role m = "assistant"
                  ∧ Forall (λ m', role m' ≠ "assistant") post
  | None => Forall (λ m', role m' ≠ "assistant") msgs
  end.
Proof.
  induction msgs as [|x msgs IH] using rev_ind.
  { unfold get_last_assistant_message. simpl. constructor. }
  rewrite get_last_assistant_message_snoc. case_bool_decide as Hx.
  - exists msgs, []. by split_and!.
  - destruct (get_last_assistant_message msgs) as [m|].
    + destruct IH as (pre & post & -> & Hm & Hpost).
      exists pre, (post ++ [x]). split_and!; try done.
      * by rewrite <- app_assoc.
      * apply Forall_app. split; [done|]. by apply Forall_singleton.
    + apply Forall_app. split; [done|]. by apply Forall_singleton.
Qed.

(** X12: [_get_last_assistant_message] returns the assistant message that
    no other assistant message follows, wherever it stands in the transcript,
    and nothing exactly when the transcript has no assistant message. *)
Theorem last_assistant_message_is_the_latest (msgs : list Message) :
  (∀ m,
     get_last_assistant_message msgs = Some m
     ↔ ∃ pre post, msgs = pre ++ m :: post ∧ role m = "assistant"
                   ∧ Forall (λ m', role m' ≠ "assistant") post)
  ∧ (get_last_assistant_message msgs = None
     ↔ Forall (λ m', role m' ≠ "assistant") msgs).
Proof.
  pose proof (get_last_assistant_message_cases msgs) as Hcases.
  split.
  - intros m. split.
    + intros Hm. by rewrite Hm in Hcases.
    + intros (pre & post & -> & Hm & Hpost).
      by apply get_last_assistant_message_found.
  - split.
    + intros Hnone. by rewrite Hnone in Hcases.
    + intros Hall. destruct (get_last_assistant_message msgs) as [m|]; [|done].
      destruct Hcases as (pre & post & -> & Hm & _).
      apply Forall_app in Hall as [_ Hall]. by apply Forall_cons in Hall as [? _].
Qed.

(** *** The handlers of the commands *)

Lemma handle_copy_command_true command msgs last_output b copied :
  handle_copy_command command msgs last_output = Return (b, copied) →
  b = true.
Proof.
  unfold handle_copy_command. intros Hrun.
  repeat case_match; by simplify_eq.
Qed.

Lemma first_text_or_empty_throws ps e :
  first_text_or_empty ps = Throw e → e = KeyError.
Proof.
  induction ps as [|p ps IH]; simpl; [done|].
  intros Hps. repeat case_match; simplify_eq; try done. by apply IH.
Qed.

Lemma strict_text_throws c e : strict_text c = Throw e → e = KeyError.
Proof. destruct c; [done|]. apply first_text_or_empty_throws. Qed.



End InputManagerProperties.

(** ** Properties of the loop of [run] *)

Section RunProperties.

Context `{Collaborators} `{Translator} `{Interpreter}.


(** *** The passes of the loop *)

Lemma read_lines_shorter (terminal : list string) : ∀ lines lines' terminal',
  read_lines lines terminal = Some (lines', terminal') →
  length terminal' < length terminal.
Proof.
  induction terminal as [|line terminal IH]; intros lines lines' terminal';
    simpl; [done|].
  case_bool_decide.
  - intros [= _ <-]. lia.
  - intros Hread. apply IH in Hread. lia.
Qed.

Lemma get_input_reads w :
  self (get_input w).2 = self w
  ∧ trace (get_input w).2 = trace w
  ∧ ((get_input w).1.1 = "exit"
     ∨ length (stdin (get_input w).2) < length (stdin w)).
Proof.
  unfold get_input. destruct (stdin w) as [|text terminal] eqn:Hin.
  { split_and!; try done. by left. }
  repeat case_match; simpl; split_and!; try done; try (by left);
    try (right; lia).
  right.
  match goal with
  | Hread : read_lines _ _ = Some _ |- _ =>
      apply read_lines_shorter in Hread; lia
  end.
Qed.

Lemma process_user_message_reads provider um w :
  length (stdin (process_user_message provider um w).2) ≤ length (stdin w).
Proof.
  destruct (resolves_reads provider um w _ _
              (process_user_message_resolves provider um w))
    as (new & _ & ->).
  rewrite length_drop. lia.
Qed.

Lemma run_pass_progress provider w provider' w' :
  run_pass provider w = inr (provider', w') →
  length (stdin w') < length (stdin w).
Proof.
  unfold run_pass.
  destruct (get_input_reads w) as (_ & _ & Hread).
  destruct (get_input w) as [[input_type value] w1]. simpl in Hread.
  intros Hpass.
  assert (stdin w' = stdin w1
          ∨ ∃ p um, w' = (process_user_message p um w1).2) as Hw'.
  { repeat case_match; simplify_eq; try (by left);
      right; eexists _, _;
      match goal with
      | Hrun : process_user_message _ _ _ = _ |- _ => by rewrite Hrun
      end. }
  assert (input_type ≠ "exit") as Hexit.
  { intros ->. by rewrite bool_decide_eq_true_2 in Hpass. }
  destruct Hread as [|Hread]; [done|].
  destruct Hw' as [->|(p & um & ->)]; [done|].
  pose proof (process_user_message_reads p um w1). lia.
Qed.

Lemma run_loop_enough fuel : ∀ provider w,
  length (stdin w) < fuel → ∃ ending, run_loop fuel provider w = Some ending.
Proof.
  induction fuel as [|fuel IH]; intros provider w Hfuel; [lia|]. simpl.
  destruct (run_pass provider w) as [ending|[provider' w']] eqn:Hpass.
  - by exists ending.
  - apply IH. apply run_pass_progress in Hpass. lia.
Qed.

Lemma read_lines_suffix (terminal : list string) : ∀ lines lines' terminal',
  read_lines lines terminal = Some (lines', terminal') →
  ∃ read, read ≠ [] ∧ terminal = read ++ terminal'.
Proof.
  induction terminal as [|line terminal IH]; intros lines lines' terminal';
    simpl; [done|].
  case_bool_decide.
  - intros [= _ <-]. by exists [line].
  - intros Hread. destruct (IH _ _ _ Hread) as (read & _ & ->).
    by exists (line :: read).
Qed.

Lemma get_input_suffix w :
  ∃ read,
    stdin w = read ++ stdin (get_input w).2
    ∧ ((get_input w).1.1 = "exit" ∨ read ≠ []).
Proof.
  unfold get_input. destruct (stdin w) as [|text terminal] eqn:Hin.
  { exists []. simpl. rewrite Hin. split; [done|by left]. }
  repeat case_match; simpl;
    try (exists [text]; split; [done|by right]);
    try (exists (text :: terminal); split; [by rewrite app_nil_r|by left]).
  match goal with
  | Hread : read_lines _ _ = Some _ |- _ =>
      destruct (read_lines_suffix _ _ _ _ Hread) as (read & _ & ->)
  end.
  exists (text :: read). split; [done|by right].
Qed.

Lemma process_user_message_suffix provider um w :
  ∃ read, stdin w = read ++ stdin (process_user_message provider um w).2.
Proof.
  destruct (resolves_reads provider um w _ _
              (process_user_message_resolves provider um w))
    as (new & _ & ->).
  exists (take (count is_input new) (stdin w)). by rewrite take_drop.
Qed.

(** X16: no pass of the loop of [run] goes on without the terminal.  A pass
    that goes on has taken at least one line, the confirmations and the
    multi-line inputs included: the lines left are the lines before without
    the first ones, [read].  With no line left, the pass leaves the loop at
    once on the exit of [get_input], the world as it was. *)
Theorem run_pass_reads_the_terminal (provider : list Reply) (w : World) :
  (stdin w = [] → run_pass provider w = inl (Goodbye, w))
  ∧ (∀ provider' w',
       run_pass provider w = inr (provider', w') →
       ∃ read, read ≠ [] ∧ stdin w = read ++ stdin w').
Proof.
  split.
  { intros Hin. unfold run_pass, get_input. by rewrite Hin. }
  intros provider' w'. unfold run_pass.
  destruct (get_input_suffix w) as (read & Hread & Hsome).
  destruct (get_input w) as [[input_type value] w1].
  simpl in Hread, Hsome. intros Hpass.
  assert (stdin w' = stdin w1
          ∨ ∃ p um, w' = (process_user_message p um w1).2) as Hw'.
  { repeat case_match; simplify_eq; try (by left);
      right; eexists _, _;
      match goal with
      | Hrun : process_user_message _ _ _ = _ |- _ => by rewrite Hrun
      end. }
  assert (input_type ≠ "exit") as Hexit.
  { intros ->. by rewrite bool_decide_eq_true_2 in Hpass. }
  destruct Hsome as [|Hsome]; [done|].
  destruct Hw' as [->|(p & um & ->)]; [by exists read|].
  destruct (process_user_message_suffix p um w1) as (read' & Hread').
  exists (read ++ read'). split; [by destruct read|].
  by rewrite Hread, Hread', <- app_assoc.
Qed.

(** *** The loop as a sequence of turns *)






(** *** The legacy copy command *)

Lemma handle_copy_command_throws command msgs last_output e :
  handle_copy_command command msgs last_output = Throw e →
  (e = IndexError ∧ Py.split_whitespace command = []) ∨ e = KeyError.
Proof.
  unfold handle_copy_command. intros Hrun.
  destruct (Py.split_whitespace command) as [|part0 parts];
    [left; by simplify_eq|].
  right. repeat case_match; simplify_eq; try done.
  by eapply strict_text_throws.
Qed.

Lemma lower_c_is_not_space c :
  Text.lower_char c = "c"%char → Text.isspace c = false.
Proof.
  destruct c as [[] [] [] [] [] [] [] []]; vm_compute; congruence.
Qed.

Lemma prefix_head a b p s :
  String.prefix (String a p) (String b s) = true → a = b.
Proof. simpl. by destruct (ascii_dec a b). Qed.

Lemma copy_prefix_has_words value :
  Py.startswith "copy " (Text.lower value) = true →
  Py.split_whitespace value ≠ [].
Proof.
  destruct value as [|c value]; [done|].
  unfold Py.startswith. intros Hc.
  apply prefix_head, eq_sym, lower_c_is_not_space in Hc.
  unfold Py.split_whitespace. simpl. rewrite Hc.
  by destruct (Py.cut value).
Qed.

(** X18: a chat input that starts with "copy " in any case, such as "Copy
    that to the notes", is taken for the legacy copy command and is never
    sent: the pass makes no call of the provider and adds nothing to the
    transcript; the loop goes on from the same state, the terminal apart, or
    ends with the [KeyError] of the handler. *)
Theorem copy_prefixed_input_is_not_sent
    (provider : list Reply) (w w1 : World) (value : string) :
  get_input w = (("chat", value), w1) →
  Py.startswith "copy " (Text.lower value) = true →
  self w1 = self w ∧ trace w1 = trace w
  ∧ (run_pass provider w = inr (provider, w1)
     ∨ run_pass provider w = inl (Crashed (FromHandler KeyError), w1)).
Proof.
  intros Hinput Hcopy.
  destruct (get_input_reads w) as (Hself & Htrace & _).
  rewrite Hinput in Hself, Htrace. split; [done|]. split; [done|].
  unfold run_pass. rewrite Hinput, Hcopy. simpl.
  destruct (handle_copy_command value (messages (self w1))
              (last_printed_text_output (self w1))) as [[b copied]|e] eqn:Hh.
  - apply handle_copy_command_true in Hh as ->. by left.
  - right. apply handle_copy_command_throws in Hh as [[_ Hnil]| ->]; [|done].
    by apply copy_prefix_has_words in Hcopy.
Qed.

(** *** A continued session *)

Lemma chain_from_record new : ∀ ch cid,
  commit_chain (Some ch) cid new →
  Forall (λ e, is_create e = false) new
  ∧ ∀ pre c post,
      new = pre ++ c :: post →
      Forall (λ e, is_commit e = false) pre →
      is_commit c = true →
      ∃ msgs eid, c = UpdateChat (id ch) msgs eid.
Proof.
  induction new as [|e new IH]; intros ch cid Hchain.
  { split; [done|]. intros pre c post Heq. by destruct pre. }
  assert (∀ ch', commit_chain (Some ch') cid new →
                 is_commit e = false →
                 Forall (λ e, is_create e = false) (e :: new)
                 ∧ ∀ pre c post,
                     e :: new = pre ++ c :: post →
                     Forall (λ e, is_commit e = false) pre →
                     is_commit c = true →
                     ∃ msgs eid, c = UpdateChat (id ch') msgs eid) as Hskip.
  { intros ch' Hch' He. destruct (IH ch' cid Hch') as [Hall Hfirst].
    split; [constructor; [by destruct e|done]|].
    intros pre c post Heq Hpre Hc.
    destruct pre as [|x pre]; simplify_eq/=; [congruence|].
    apply Forall_cons in Hpre as [_ Hpre]. by eapply Hfirst. }
  destruct e; simpl in Hchain; try (by apply Hskip).
  - by destruct Hchain as [? _].
  - destruct Hchain as [(ch0 & [= <-] & ->) Hchain].
    destruct (IH _ cid Hchain) as [Hall _].
    split; [by constructor|].
    intros pre c post Heq Hpre Hc.
    destruct pre as [|x pre]; simplify_eq/=; [by eexists _, _|].
    by apply Forall_cons in Hpre as [? _].
Qed.

(** X19: a session continued from a stored chat.  [_load_chat] fails when
    the chat is not found; otherwise it takes the transcript of the stored
    record, whose list the manager shares from then on, and the session that
    follows never calls [create_chat]: its first commit, and only a commit,
    is an [update_chat] under the id of the stored record. *)
Theorem continued_session_only_updates
    (existing_chat : option Chat) (s s0 : ChatManager)
    (inputs lines : list string) (provider : list Reply) (calls : list Event) :
  load_chat existing_chat s = Some s0 →
  ∃ chat new,
    existing_chat = Some chat
    ∧ messages s0 = messages_of chat s
    ∧ (∃ held, current_chat s0 = Some held
               ∧ id held = id chat ∧ chat_messages held = Shared)
    ∧ trace (run_chat inputs provider
               {| self := s0; stdin := lines; trace := calls |}).2
      = calls ++ new
    ∧ Forall (λ e, is_create e = false) new
    ∧ ∀ pre c post,
        new = pre ++ c :: post →
        Forall (λ e, is_commit e = false) pre →
        is_commit c = true →
        ∃ msgs eid, c = UpdateChat (id chat) msgs eid.
Proof.
  intros Hload. destruct existing_chat as [chat|]; [|done].
  injection Hload as <-.
  destruct (run_chat_lift chained) with
    (inputs := inputs) (provider := provider)
    (w := {| self :=
               {| messages := messages_of chat s;
                  external_id := external_id s;
                  current_chat := Some {| id := id chat;
                                          chat_messages := Shared;
                                          chat_external_id :=
                                            chat_external_id chat |};
                  system_prompt := system_prompt s;
                  chat_id := chat_id s;
                  last_printed_text_output := last_printed_text_output s;
                  mcp_servers := mcp_servers s |};
             stdin := lines; trace := calls |})
    as (new & Htr & Hch & _).
  - intros w0. by apply chained_silent.
  - apply chained_trans.
  - intros p v w0.
    apply (resolves_chained p _ w0 _ _ (process_user_message_resolves p _ w0)).
  - exists chat, new. simpl in *.
    destruct (chain_from_record new _ _ Hch) as [Hall Hfirst].
    split_and!; try done. by eexists.
Qed.

(** *** A new session *)

Lemma chain_from_none new : ∀ cid,
  commit_chain None cid new →
  ∀ pre c post,
    new = pre ++ c :: post →
    Forall (λ e, is_commit e = false) pre →
    is_commit c = true →
    (∃ msgs eid, c = CreateChat msgs eid cid)
    ∧ Forall (λ e, is_create e = false) post.
Proof.
  induction new as [|e new IH]; intros cid Hchain pre c post Heq Hpre Hc.
  { by destruct pre. }
  destruct pre as [|x pre]; simplify_eq/=.
  - destruct c; try done; simpl in Hchain.
    + destruct Hchain as (_ & -> & Hchain).
      split; [by eexists _, _|].
      by destruct (chain_from_record _ _ _ Hchain) as [? _].
    + by destruct Hchain as [(ch & ? & _) _].
  - apply Forall_cons in Hpre as [Hx Hpre].
    destruct x; try done; simpl in Hchain; by eapply IH.
Qed.

(** X20: a new session.  A manager built without chat id (none, or an empty
    one) holds no chat record and the generated id; whatever system prompt
    [run] then sets, the first commit of the session is a [create_chat]
    under the generated id, and no commit after it creates a chat again. *)
Theorem new_session_creates_once
    (chat_id_arg : option string) (generated : string)
    (servers inputs lines : list string) (prompt : option string)
    (provider : list Reply) :
  truthy chat_id_arg = false →
  let w := {| self := with_system_prompt prompt
                        (init chat_id_arg generated servers).1;
              stdin := lines; trace := [] |} in
  (init chat_id_arg generated servers).2 = false
  ∧ ∀ pre c post,
      trace (run_chat inputs provider w).2 = pre ++ c :: post →
      Forall (λ e, is_commit e = false) pre →
      is_commit c = true →
      (∃ msgs eid, c = CreateChat msgs eid generated)
      ∧ Forall (λ e, is_create e = false) post.
Proof.
  intros Hid w. split; [done|].
  destruct (run_chat_lift chained) with
    (inputs := inputs) (provider := provider) (w := w)
    as (new & Htr & Hch & _).
  - intros w0. by apply chained_silent.
  - apply chained_trans.
  - intros p v w0.
    apply (resolves_chained p _ w0 _ _ (process_user_message_resolves p _ w0)).
  - rewrite Htr. simpl in *. rewrite Hid in Hch.
    intros pre c post. by apply chain_from_none.
Qed.

(** *** How the loop is left *)

(** X21: when the terminal has a line to read, in ASCII, [get_input]
    returns an exit exactly in two cases: the line, without its trailing
    whitespace and in lower case, is "exit" or "quit"; or the line opens a
    multi-line input that no line "EOF" closes.  Whitespace before the word
    makes it a chat input. *)
Theorem exit_inputs
    (w : World) (line : string) (terminal : list string) :
  stdin w = line :: terminal →
  Text.isascii line = true →
  ((get_input w).1.1 = "exit"
   ↔ Text.lower (Text.rstrip line) ∈ ["exit"; "quit"]
     ∨ (Text.rstrip line = "<<EOF" ∧ "EOF" ∉ terminal)).
Proof.
  intros Hin _. unfold get_input, is_exit_command. rewrite Hin.
  assert (∀ l lines, "EOF" ∉ l ↔ read_lines lines l = None) as Hnone.
  { induction l as [|x l IH]; intros lines; simpl.
    - split; [done|]. intros _. apply not_elem_of_nil.
    - rewrite not_elem_of_cons. case_bool_decide as Hx.
      + split; [by intros [Hne _]|done].
      + rewrite <- IH. split; [by intros [_ Hl]|by intros Hl]. }
  case_bool_decide as Hempty.
  { simpl. rewrite Hempty. split; [done|].
    intros [Hex|[Hdoc _]]; [|done].
    simpl in Hex. by repeat (apply elem_of_cons in Hex as [Hex|Hex]);
      try apply elem_of_nil in Hex. }
  case_bool_decide as Hexit; [simpl; by split; [left|]|].
  destruct (Py.startswith "/" (Text.rstrip line)
            && bool_decide (Text.rstrip line ∈ SLASH_COMMANDS)) eqn:Hslash;
    simpl.
  { split; [done|]. intros [Hex|[Hdoc _]]; [done|].
    by rewrite Hdoc in Hslash. }
  clear Hslash. case_bool_decide as Hdoc.
  - destruct (read_lines [] terminal) as [[lines terminal']|] eqn:Hread;
      simpl.
    + split; [done|]. intros [Hex|[_ Hno]]; [done|].
      apply (Hnone terminal []) in Hno. congruence.
    + split; [|done]. intros _. right. split; [done|].
      by apply (Hnone terminal []).
  - simpl. split; [done|]. by intros [Hex|[Hd _]].
Qed.

Lemma confirmation_loop_eof lines : ∀ w e w',
  confirmation_loop lines w = (Raise e, w') → stdin w' = [].
Proof.
  induction lines as [|line lines IH]; intros w e w'; simpl.
  - by intros [= _ <-].
  - repeat case_bool_decide; try done. apply IH.
Qed.

Lemma get_user_confirmation_eof c sn tn w e w' :
  get_user_confirmation c sn tn w = (Raise e, w') → stdin w' = [].
Proof.
  unfold get_user_confirmation, mbind, mret, M_bind, M_ret, get. simpl.
  destruct (auto_confirmed _ _ _); [done|]. apply confirmation_loop_eof.
Qed.

Lemma resolves_eof provider um w r w' :
  resolves provider um w r w' → r = Raise EOFError → stdin w' = [].
Proof.
  intros Hres.
  induction Hres as
    [ um w
    | am eid provider um w Hc
    | am eid provider um w Hc He
    | am eid provider um w sn tn args w2 Hc He Hg
    | am eid provider um w sn tn args w2 Hc He Hg
    | am eid provider um w sn tn args w2 rest w' Hc He Hg Hrec IH
    | am eid provider um w sn tn args w2 e w' Hc He Hg Hrec IH ];
    intros Hr; try done.
  - by eapply get_user_confirmation_eof.
  - by apply IH.
Qed.

Lemma run_pass_interrupted provider w w' :
  run_pass provider w = inl (Interrupted, w') →
  ∃ value w1,
    get_input w = (("chat", value), w1)
    ∧ process_user_message provider
        (create_message "user" (Str value) None None None) w1
      = (Raise EOFError, w').
Proof.
  unfold run_pass. destruct (get_input w) as [[input_type value] w1].
  intros Hpass. exists value, w1.
  repeat case_match; simplify_eq; try done.
  all: match goal with
       | Hchat : bool_decide (_ = "chat") = true |- _ =>
           apply bool_decide_eq_true_1 in Hchat as ->
       end; by split.
Qed.

(** X22: the terminal input ends during a confirmation.  The pass of [run]
    in which that happens leaves the loop through the [except] clause for
    [EOFError], not with an uncaught exception; it was a chat turn, nothing
    of which has been committed, while the transcript in memory holds the
    user message and what the turn appended; the terminal is at its end.
    [self.current_chat] is the object that it was; a record that shares its
    list with the manager shows the grown transcript. *)
Theorem interrupted_confirmation_ends_the_session
    (provider : list Reply) (w w' : World) :
  run_pass provider w = inl (Interrupted, w') →
  ∃ value w1 new added,
    get_input w = (("chat", value), w1)
    ∧ process_user_message provider
        (create_message "user" (Str value) None None None) w1
      = (Raise EOFError, w')
    ∧ trace w' = trace w ++ new
    ∧ Forall (λ e, is_commit e = false) new
    ∧ current_chat (self w') = current_chat (self w)
    ∧ messages (self w')
      = messages (self w)
        ++ create_message "user" (Str value) None None None :: added
    ∧ (∀ chat,
         current_chat (self w) = Some chat →
         messages_of chat (self w')
         = match chat_messages chat with
           | Own msgs => msgs
           | Shared =>
               messages (self w)
               ++ create_message "user" (Str value) None None None :: added
           end)
    ∧ stdin w' = [].
Proof.
  intros Hpass.
  destruct (run_pass_interrupted _ _ _ Hpass) as (value & w1 & Hinput & Hrun).
  destruct (get_input_reads w) as (Hself & Htrace & _).
  rewrite Hinput in Hself, Htrace. simpl in Hself, Htrace.
  pose proof (process_user_message_resolves provider
                (create_message "user" (Str value) None None None) w1)
    as Hres.
  rewrite Hrun in Hres. simpl in Hres.
  destruct (resolves_commits _ _ _ _ _ Hres) as (new & Htr & Hnew).
  destruct (resolves_appends _ _ _ _ _ Hres) as (added & Hadd).
  destruct (resolves_chained _ _ _ _ _ Hres) as (new' & Htr' & _ & Hcur & _).
  rewrite Htr in Htr'. apply app_inv_head in Htr' as <-.
  exists value, w1, new, added.
  rewrite Htr, Hadd, Hcur, chat_after_silent, Hself, Htrace by done.
  split_and!; try done.
  - intros chat _. unfold messages_of.
    destruct (chat_messages chat); [done|]. by rewrite Hadd, Hself.
  - by apply (resolves_eof _ _ _ _ _ Hres).
Qed.

End RunProperties.
(** ** The properties on the sample collaborators *)

#[local] Existing Instance ex_env.

Example strip_lower_yes : normalized "  YeS	" = "yes".
Proof. reflexivity. Qed.

Example strip_keeps_inner_blanks : Text.strip " y es " = "y es".
Proof. reflexivity. Qed.

(** The user sends "hello", the provider answers "hi there": two messages,
    and the last produced text is "hi there". *)
Example scenario_plain_answer :
  let run := process_user_message [ex_plain_reply "hi there" None]
               (ex_user "hello") (ex_world ["fs"] []) in
  run.1 = Ok []
  ∧ messages (self run.2) = [ex_user "hello"; ex_assistant (Str "hi there")]
  ∧ last_printed_text_output (self run.2) = Some "hi there".
Proof. by vm_compute. Qed.

(** The user sends "list files", the provider answers with a tool use for
    server "fs", the user denies: three messages, the last one is the
    cancellation notice, and the executor is not called. *)
Example scenario_denied :
  let run := process_user_message [ex_tool_reply "read" None]
               (ex_user "list files") (ex_world ["fs"] ["n"]) in
  run.1 = Ok []
  ∧ length (messages (self run.2)) = 3
  ∧ last (messages (self run.2)) = Some (ex_user no_exec_msg)
  ∧ count is_tool_call (trace run.2) = 0.
Proof. by vm_compute. Qed.

(** The same with an approving user: the directive, the result of the tool
    and the next reply of the assistant follow the user message. *)
Example scenario_approved :
  let run := process_user_message
               [ex_tool_reply "read" None; ex_plain_reply "two files" None]
               (ex_user "list files") (ex_world ["fs"] ["y"]) in
  run.1 = Ok []
  ∧ length (messages (self run.2)) = 4
  ∧ last (messages (self run.2)) = Some (ex_assistant (Str "two files"))
  ∧ count is_tool_call (trace run.2) = 1
  ∧ count is_provider_call (trace run.2) = 2.
Proof. by vm_compute. Qed.

(** The provider fails on the second call: the exception leaves the turn
    without any commit. *)
Example scenario_provider_fails :
  let run := process_user_message [ex_tool_reply "read" None]
               (ex_user "list files") (ex_world ["fs"] ["y"]) in
  run.1 = Raise ProviderError
  ∧ length (messages (self run.2)) = 3
  ∧ count is_commit (trace run.2) = 0.
Proof. by vm_compute. Qed.


(** C6 as stated fails: "list" is in the auto-confirm list of server "fs",
    but the bot has no MCP server configured, so the gate asks. *)
Lemma auto_confirm_needs_bot_servers :
  get_config "fs" = Some {| auto_confirm := Some ["list"] |}
  ∧ "list" ∈ ["list"]
  ∧ get_user_confirmation (Parts [ex_tool_part "list"]) (Some "fs")
      (Some "list") (ex_world [] ["n"])
    = (Ok false, {| self := ex_self []; stdin := []; trace := [Input] |}).
Proof. split; [reflexivity|]. split; [compute_done|reflexivity]. Qed.

Lemma auto_confirm_skips_prompt_witness :
  get_user_confirmation (Parts [ex_tool_part "list"]) (Some "fs") (Some "list")
    (ex_world ["fs"] ["n"])
  = (Ok true, ex_world ["fs"] ["n"]).
Proof.
  apply (auto_confirm_skips_prompt (Parts [ex_tool_part "list"]) "fs" "list"
           {| auto_confirm := Some ["list"] |} ["list"]
           (ex_world ["fs"] ["n"])).
  - discriminate.
  - discriminate.
  - discriminate.
  - reflexivity.
  - reflexivity.
  - compute_done.
Defined.

(** C8 at work: the scenario "hello" / "hi there" after the provider call. *)
Lemma plain_response_is_terminal_witness :
  process_assistant_message [] (process_user_message [])
    (ex_assistant (Str "hi there")) (ex_world ["fs"] [])
  = (Ok (ex_assistant (Str "hi there"), []),
     {| self := set_last_printed_text_output (Some "hi there")
                  (append_message (ex_assistant (Str "hi there"))
                                  (ex_self ["fs"]));
        stdin := []; trace := [] |}).
Proof.
  apply (plain_response_is_terminal [] (process_user_message [])
           (ex_assistant (Str "hi there")) (ex_world ["fs"] [])).
  reflexivity.
Defined.

(** C5 at work: a tool-use part without server and tool. *)
Lemma malformed_directive_changes_nothing_witness :
  process_assistant_message [] (process_user_message [])
    (ex_assistant (Parts [ex_bad_part])) (ex_world ["fs"] ["y"])
  = (Ok (ex_assistant (Parts [ex_bad_part]), []), ex_world ["fs"] ["y"]).
Proof.
  apply (malformed_directive_changes_nothing [] (process_user_message [])
           (ex_assistant (Parts [ex_bad_part])) (ex_world ["fs"] ["y"])).
  - discriminate.
  - reflexivity.
Defined.

(** C4 at work: the user answers "n". *)
Lemma denied_tool_use_is_cancelled_witness :
  let am := (ex_tool_reply "read" None).1 in
  let w := ex_world ["fs"] ["n"] in
  let args : Args := {[ "path" := "." ]} in
  ∃ (n : nat) (w' : World),
    process_assistant_message [] (process_user_message []) am w
    = (Ok (directive_message am "fs" "read" args, []), w')
    ∧ messages (self w')
      = messages (self w) ++ [directive_message am "fs" "read" args;
                              create_message "user"
                                (Str "Tool execution cancelled by user.")
                                None None None]
    ∧ trace w' = trace w ++ replicate n Input
    ∧ stdin w' = drop n (stdin w).
Proof.
  intros am w args.
  apply (denied_tool_use_is_cancelled [] (process_user_message []) am w
           "fs" "read" args).
  - discriminate.
  - reflexivity.
  - reflexivity.
Defined.

(** C3 at work: the user answers "y" and the tool runs. *)
Lemma approved_tool_round_witness :
  let um := ex_user "list files" in
  let am := (ex_tool_reply "read" None).1 in
  let w := ex_world ["fs"] ["y"] in
  let args : Args := {[ "path" := "." ]} in
  let provider := [ex_plain_reply "two files" None] in
  let dm := directive_message am "fs" "read" args in
  let w2 := (get_user_confirmation (directive (content am)) (Some "fs")
               (Some "read") (said dm (answered None (called um w)))).2 in
  let rm := result_message (trace w2 ++ [ExecuteTool "fs" "read" args])
              "fs" "read" args in
  let w3 := called rm (logged (ExecuteTool "fs" "read" args) w2) in
  messages (self w3) = messages (self w) ++ [um; dm; rm]
  ∧ (∃ n, trace w3
          = trace w
            ++ [CallChatCompletions (messages (self w) ++ [um])
                  (current_chat (self w)) (system_prompt (self w))]
            ++ replicate n Input
            ++ [ExecuteTool "fs" "read" args;
                CallChatCompletions (messages (self w) ++ [um; dm; rm])
                  (current_chat (self w)) (system_prompt (self w))])
  ∧ process_user_message ((am, None) :: provider) um w
    = match await_reply provider w3 with
      | (Ok rest, w') => (Ok rest, committed w')
      | (Raise e, w') => (Raise e, w')
      end.
Proof.
  intros um am w args provider dm w2 rm w3.
  apply (approved_tool_round provider um am None w w2 "fs" "read" args).
  - reflexivity.
  - reflexivity.
  - reflexivity.
Defined.

(** C1 as stated fails: one message of the user, one tool round, two
    commits. *)
Lemma one_user_message_two_commits :
  let provider := [ex_tool_reply "read" None; ex_plain_reply "two files" None] in
  let run := run_chat ["list files"] provider (ex_world ["fs"] ["y"]) in
  run.1 = Ok []
  ∧ length ["list files"] = 1
  ∧ count is_commit (trace run.2) = 2.
Proof. by vm_compute. Qed.

Lemma commits_of_a_turn_witness :
  let provider := [ex_tool_reply "read" None; ex_plain_reply "two files" None] in
  let w := ex_world ["fs"] ["y"] in
  let w' := (process_user_message provider (ex_user "list files") w).2 in
  ∃ body commits,
    trace w' = trace w ++ body ++ commits
    ∧ Forall (λ e, is_commit e = false) body
    ∧ Forall (λ e, is_commit e = true) commits
    ∧ length commits = count is_provider_call body
    ∧ length commits = S (count is_tool_call body).
Proof.
  intros provider w w'.
  apply (commits_of_a_turn provider (ex_user "list files") w [] w').
  by vm_compute.
Defined.


(** A session continued from a stored chat of two messages: the provider is
    passed three messages and the record that shares them. *)
Example scenario_continued_call :
  let chat :=
    mkChat "c7" (Own [ex_user "hello"; ex_assistant (Str "hi")]) None in
  let w := {| self := default (ex_self ["fs"])
                        (load_chat (Some chat) (ex_self ["fs"]));
              stdin := []; trace := [] |} in
  let msgs := [ex_user "hello"; ex_assistant (Str "hi"); ex_user "again"] in
  ∃ held,
    head (trace (process_user_message [] (ex_user "again") w).2)
    = Some (CallChatCompletions msgs (Some held) (Some "time"))
    ∧ messages_of held (self (process_user_message [] (ex_user "again") w).2)
      = msgs.
Proof. by eexists. Qed.

(** C9 at work: a new session with one tool round. *)
Example scenario_tool_round_metadata :
  let provider := [ex_tool_reply "read" None; ex_plain_reply "two files" None] in
  let w := ex_world ["fs"] ["y"] in
  messages (self (run_chat ["list files"] provider w).2)
  = [ex_user "list files";
     {| role := "assistant"; content := Parts [ex_text_part "let me look"];
        server := Some "fs"; tool := Some "read";
        arguments := Some {[ "path" := "." ]} |};
     {| role := "user"; content := Str "a.txt, b.txt";
        server := Some "fs"; tool := Some "read";
        arguments := Some {[ "path" := "." ]} |};
     ex_assistant (Str "two files")].
Proof. by vm_compute. Qed.

(** ** The further properties on the sample collaborators *)

(** One tool round: both commits write the four messages of the turn. *)
Lemma commits_write_final_transcript_witness :
  let provider := [ex_tool_reply "read" None; ex_plain_reply "two files" None] in
  let w := ex_world ["fs"] ["y"] in
  let w' := (process_user_message provider (ex_user "list files") w).2 in
  ∃ body commits,
    trace w' = trace w ++ body ++ commits
    ∧ Forall (λ e, is_commit e = false) body
    ∧ commits ≠ []
    ∧ Forall (λ e, written e
                   = Some (messages (self w'), external_id (self w')))
             commits.
Proof.
  intros provider w w'.
  apply (commits_write_final_transcript provider (ex_user "list files") w
           [] w').
  by vm_compute.
Defined.

(** A cancelled tool use: the text kept is that of the assistant. *)
Lemma last_output_after_a_turn_witness :
  let provider := [ex_tool_reply "read" None] in
  let w := ex_world ["fs"] ["n"] in
  let w' := (process_user_message provider (ex_user "list files") w).2 in
  (∃ m, last (messages (self w')) = Some m
        ∧ last_printed_text_output (self w') = text_of (content m))
  ∨ (∃ pre dm,
       messages (self w')
       = pre ++ [dm; create_message "user"
                       (Str "Tool execution cancelled by user.")
                       None None None]
       ∧ last_printed_text_output (self w') = text_of (content dm)).
Proof.
  intros provider w w'.
  apply (last_output_after_a_turn provider (ex_user "list files") w [] w').
  by vm_compute.
Defined.

(** In a session continued from a stored chat, the terminal input ends at
    the confirmation. *)
Lemma raising_turn_is_not_persisted_witness :
  let provider := [ex_tool_reply "read" None] in
  let chat :=
    mkChat "c7" (Own [ex_user "hello"; ex_assistant (Str "hi")]) None in
  let w := {| self := default (ex_self ["fs"])
                        (load_chat (Some chat) (ex_self ["fs"]));
              stdin := ["maybe"]; trace := [] |} in
  let um := ex_user "list files" in
  let w' := (process_user_message provider um w).2 in
  ∃ new added,
    trace w' = trace w ++ new
    ∧ Forall (λ ev, is_commit ev = false) new
    ∧ current_chat (self w') = current_chat (self w)
    ∧ messages (self w') = messages (self w) ++ um :: added
    ∧ ∀ chat,
        current_chat (self w) = Some chat →
        messages_of chat (self w')
        = match chat_messages chat with
          | Own msgs => msgs
          | Shared => messages (self w) ++ um :: added
          end.
Proof.
  intros provider chat w um w'.
  apply (raising_turn_is_not_persisted provider um w EOFError w').
  by vm_compute.
Defined.

(** Two answers, none recognised. *)
Lemma confirmation_without_answer_raises_witness :
  get_user_confirmation (Parts [ex_tool_part "read"]) (Some "fs") (Some "read")
    (ex_world ["fs"] ["maybe"; "later"])
  = (Raise EOFError,
     {| self := ex_self ["fs"]; stdin := [];
        trace := [Input; Input; Input] |}).
Proof.
  apply (confirmation_without_answer_raises (Parts [ex_tool_part "read"])
           (Some "fs") (Some "read") (ex_world ["fs"] ["maybe"; "later"])).
  - reflexivity.
  - by repeat constructor.
  - repeat constructor; compute_done.
Defined.

#[local] Existing Instance ex_translator.
#[local] Existing Instance ex_interpreter.

(** A multi-line input of two lines, one of them with a line feed. *)
Lemma heredoc_is_joined_witness :
  get_input (ex_world [] ["<<EOF  "; "one" +:+ nl +:+ "two"; "three"; "EOF";
                          "exit"])
  = (("chat", Py.join nl ["one" +:+ nl +:+ "two"; "three"]),
     with_stdin ["exit"]
       (ex_world [] ["<<EOF  "; "one" +:+ nl +:+ "two"; "three"; "EOF";
                     "exit"])).
Proof.
  apply (heredoc_is_joined
           (ex_world [] ["<<EOF  "; "one" +:+ nl +:+ "two"; "three"; "EOF";
                         "exit"])
           "<<EOF  " ["one" +:+ nl +:+ "two"; "three"] ["exit"]).
  - reflexivity.
  - reflexivity.
  - compute_done.
Defined.

Lemma unterminated_heredoc_exits_witness :
  get_input (ex_world [] ["<<EOF"; "one"; "two"])
  = (("exit", "EOF"), with_stdin [] (ex_world [] ["<<EOF"; "one"; "two"])).
Proof.
  apply (unterminated_heredoc_exits (ex_world [] ["<<EOF"; "one"; "two"])
           "<<EOF" ["one"; "two"]).
  - reflexivity.
  - reflexivity.
  - compute_done.
Defined.




Lemma copy_prefixed_input_is_not_sent_witness :
  let w := ex_world ["fs"] ["Copy that to the notes"; "exit"] in
  let w1 := with_stdin ["exit"] w in
  self w1 = self w ∧ trace w1 = trace w
  ∧ (run_pass [ex_plain_reply "hi there" None] w
     = inr ([ex_plain_reply "hi there" None], w1)
     ∨ run_pass [ex_plain_reply "hi there" None] w
       = inl (Crashed (FromHandler KeyError), w1)).
Proof.
  intros w w1.
  apply (copy_prefixed_input_is_not_sent [ex_plain_reply "hi there" None]
           w w1 "Copy that to the notes").
  - reflexivity.
  - reflexivity.
Defined.

Lemma continued_session_only_updates_witness :
  let chat :=
    mkChat "c7" (Own [ex_user "hello"; ex_assistant (Str "hi")]) None in
  ∃ s0 chat' new,
    load_chat (Some chat) (ex_self ["fs"]) = Some s0
    ∧ Some chat = Some chat'
    ∧ messages s0 = messages_of chat' (ex_self ["fs"])
    ∧ (∃ held, current_chat s0 = Some held
               ∧ id held = id chat' ∧ chat_messages held = Shared)
    ∧ trace (run_chat ["again"] [ex_plain_reply "yes?" None]
               {| self := s0; stdin := []; trace := [] |}).2
      = [] ++ new
    ∧ Forall (λ e, is_create e = false) new
    ∧ ∀ pre c post,
        new = pre ++ c :: post →
        Forall (λ e, is_commit e = false) pre →
        is_commit c = true →
        ∃ msgs eid, c = UpdateChat (id chat') msgs eid.
Proof.
  intros chat.
  destruct (continued_session_only_updates (Some chat) (ex_self ["fs"])
              (default (ex_self ["fs"])
                 (load_chat (Some chat) (ex_self ["fs"])))
              ["again"] [] [ex_plain_reply "yes?" None] [] eq_refl)
    as (chat' & new & Hchat & Hmsgs & Hheld & Htrace & Hcreate & Hfirst).
  eexists _, chat', new. split; [reflexivity|]. by split_and!.
Defined.

(** A session opened with an empty chat id: two turns, one [create_chat]. *)
Lemma new_session_creates_once_witness :
  let w := {| self := with_system_prompt (Some "time")
                        (init (Some "") "g1" ["fs"]).1;
              stdin := []; trace := [] |} in
  (init (Some "") "g1" ["fs"]).2 = false
  ∧ ∀ pre c post,
      trace (run_chat ["hello"; "again"]
               [ex_plain_reply "hi" None; ex_plain_reply "yes" None] w).2
      = pre ++ c :: post →
      Forall (λ e, is_commit e = false) pre →
      is_commit c = true →
      (∃ msgs eid, c = CreateChat msgs eid "g1")
      ∧ Forall (λ e, is_create e = false) post.
Proof.
  apply (new_session_creates_once (Some "") "g1" ["fs"] ["hello"; "again"] []
           (Some "time") [ex_plain_reply "hi" None; ex_plain_reply "yes" None]).
  reflexivity.
Defined.

(** "Quit" followed by blanks leaves the loop. *)
Lemma exit_inputs_witness :
  (get_input (ex_world [] ["Quit  "; "more"])).1.1 = "exit"
  ↔ Text.lower (Text.rstrip "Quit  ") ∈ ["exit"; "quit"]
    ∨ (Text.rstrip "Quit  " = "<<EOF" ∧ "EOF" ∉ ["more"]).
Proof.
  apply (exit_inputs (ex_world [] ["Quit  "; "more"]) "Quit  " ["more"]).
  - reflexivity.
  - reflexivity.
Defined.

(** In a session continued from a stored chat, the terminal input ends
    after the chat line, at the confirmation. *)
Lemma interrupted_confirmation_ends_the_session_witness :
  let provider := [ex_tool_reply "read" None] in
  let chat :=
    mkChat "c7" (Own [ex_user "hello"; ex_assistant (Str "hi")]) None in
  let w := {| self := default (ex_self ["fs"])
                        (load_chat (Some chat) (ex_self ["fs"]));
              stdin := ["list files"]; trace := [] |} in
  let w' := (process_user_message provider (ex_user "list files")
               (get_input w).2).2 in
  ∃ value w1 new added,
    get_input w = (("chat", value), w1)
    ∧ process_user_message provider
        (create_message "user" (Str value) None None None) w1
      = (Raise EOFError, w')
    ∧ trace w' = trace w ++ new
    ∧ Forall (λ e, is_commit e = false) new
    ∧ current_chat (self w') = current_chat (self w)
    ∧ messages (self w')
      = messages (self w)
        ++ create_message "user" (Str value) None None None :: added
    ∧ (∀ chat,
         current_chat (self w) = Some chat →
         messages_of chat (self w')
         = match chat_messages chat with
           | Own msgs => msgs
           | Shared =>
               messages (self w)
               ++ create_message "user" (Str value) None None None :: added
           end)
    ∧ stdin w' = [].
Proof.
  intros provider chat w w'.
  apply (interrupted_confirmation_ends_the_session provider w w').
  by vm_compute.
Defined.
